(** * pac-backend: the talk store (package data) and the routing table (package main)

    A shallow embedding of [data/talk.go] and of the routing table built in
    [main.go], together with the properties of the specification that concern
    them.

    The store is a thin layer over two libraries, so the embedding has three
    layers:
    - the part of [go-playground/validator] that [validate.Struct] runs on a
      [Talk]: constraints are read from the [validate] key of the struct tags;
    - the part of [jinzhu/gorm] (v1) that the store calls: the chainable
      handle [DB] with its [Value], [Error] and [search], and the finishers
      [Take], [First], [Find], [Create], [Update], [Delete];
    - the store itself, one definition per method of [TalkDBStore], written
      as the same chains of calls as the Go source.

    Go values are modelled as follows: [uint] is [N]; a pointer is an
    [option] ([None] is [nil]); a slice is an [option (list _)], so that the
    [nil] slice and the empty slice [[]*Talk{}] are told apart; an [error]
    result is an [option error] ([None] is [nil]). *)

From Stdlib Require Import List String Ascii NArith Bool Lia.
Import ListNotations.

Module Data.

Local Open Scope string_scope.
Local Open Scope N_scope.

(** ** Go values *)

Definition uint := N.
Definition ptr (A : Type) := option A.
Definition slice (A : Type) := option (list A).

(** Call chains are written left to right, as in the source. *)
Notation "x |> f" := (f x) (at level 45, left associativity, only parsing).

(** ** Errors *)

(** One violated constraint, as [validator.FieldError]: the field and the
    tag that failed. *)
Record FieldError := { Field : string; Tag : string }.

Inductive error :=
| ErrRecordNotFound                         (* gorm.ErrRecordNotFound *)
| DriverError (msg : string)                (* any error reported by the database driver *)
| PreloadError (field : string)             (* gorm: can't preload field ... *)
| InvalidValidationError                    (* validator: the value is not a struct *)
| ValidationErrors (fes : list FieldError)  (* validator.ValidationErrors *)
| TalkNotFoundError (Cause : error).

Definition IsRecordNotFoundError (err : error) : bool :=
  match err with
  | ErrRecordNotFound => true
  | _ => false
  end.

(** The taxonomy of the store's errors. *)
Inductive kind := NotFound | ValidationFailed | Unexpected.

Definition kind_of (err : error) : kind :=
  match err with
  | TalkNotFoundError _ => NotFound
  | InvalidValidationError | ValidationErrors _ => ValidationFailed
  | _ => Unexpected
  end.

(** ** Related entities

    [Person], [Topic] and [TalkDate] are declared in other files of the
    package. What [talk.go] itself fixes about them is kept here as an
    interface: the junction tables [talks_at] and [talk_topic] refer to a
    person and a topic by primary key, a [talk_date] row carries the columns
    [talk_id] and [event_id], and the preload paths name the relations
    [Organization], [Children], [Room] and [Event]. [Catalog] is the content
    of the tables that hold the related entities. *)
Class Related := {
  Person : Type;
  Topic : Type;
  TalkDate : Type;
  Catalog : Type;
  TalkDate_TalkID : TalkDate -> uint;
  TalkDate_EventID : TalkDate -> uint;
  find_Person : Catalog -> uint -> option Person;
  find_Topic : Catalog -> uint -> option Topic;
  preload_Organization : Catalog -> Person -> Person;
  preload_Children : Catalog -> Topic -> Topic;
  preload_Room : Catalog -> TalkDate -> TalkDate;
  preload_Event : Catalog -> TalkDate -> TalkDate
}.

Section WithRelated.
Context {R : Related}.

(** ** The Talk entity *)

Definition TalkLevel := string.
Definition AdvancedLevel : TalkLevel := "advanced".
Definition ExpertLevel : TalkLevel := "expert".

Record Talk := {
  ID : uint;
  Title : string;
  DurationInMinutes : uint;
  Language : string;
  Level : TalkLevel;
  Persons : slice Person;
  Topics : slice Topic;
  TalkDates : slice TalkDate
}.

(** The zero value [Talk{}]. *)
Definition Talk0 : Talk :=
  {| ID := 0; Title := EmptyString; DurationInMinutes := 0; Language := EmptyString;
     Level := EmptyString;
     Persons := None; Topics := None; TalkDates := None |}.

Definition set_ID (t : Talk) (v : uint) : Talk :=
  {| ID := v; Title := Title t; DurationInMinutes := DurationInMinutes t;
     Language := Language t; Level := Level t;
     Persons := Persons t; Topics := Topics t; TalkDates := TalkDates t |}.

Definition set_Persons (t : Talk) (v : slice Person) : Talk :=
  {| ID := ID t; Title := Title t; DurationInMinutes := DurationInMinutes t;
     Language := Language t; Level := Level t;
     Persons := v; Topics := Topics t; TalkDates := TalkDates t |}.

Definition set_Topics (t : Talk) (v : slice Topic) : Talk :=
  {| ID := ID t; Title := Title t; DurationInMinutes := DurationInMinutes t;
     Language := Language t; Level := Level t;
     Persons := Persons t; Topics := v; TalkDates := TalkDates t |}.

Definition set_TalkDates (t : Talk) (v : slice TalkDate) : Talk :=
  {| ID := ID t; Title := Title t; DurationInMinutes := DurationInMinutes t;
     Language := Language t; Level := Level t;
     Persons := Persons t; Topics := Topics t; TalkDates := v |}.

(** ** validator: [validate.Struct]

    The validator walks the fields of the struct; the constraints of a field
    are the entries of the [validate] key of its tag. A field whose tag has
    no such key carries no constraint, and a slice is only entered under
    [dive]. *)

Inductive constraint :=
| required
| oneof (allowed : list string).

Inductive field_value :=
| StringValue (s : string)
| UintValue (n : uint)
| SliceValue (is_nil : bool).

Record StructField := {
  Name : string;
  validate_tag : list constraint;
  value_of : field_value
}.

Definition hasValue (v : field_value) : bool :=
  match v with
  | StringValue s => negb (s =? EmptyString)%string
  | UintValue n => negb (n =? 0)
  | SliceValue is_nil => negb is_nil
  end.

Definition holds (c : constraint) (v : field_value) : bool :=
  match c with
  | required => hasValue v
  | oneof allowed =>
      match v with
      | StringValue s => existsb (String.eqb s) allowed
      | _ => false
      end
  end.

Definition tag_name (c : constraint) : string :=
  match c with
  | required => "required"
  | oneof _ => "oneof"
  end.

(** The constraints of one field are tried in order; the first that fails is
    reported for the field and the walk goes on with the next field. *)
Fixpoint check_field (name : string) (cs : list constraint) (v : field_value)
  : list FieldError :=
  match cs with
  | [] => []
  | c :: cs' =>
      if holds c v then check_field name cs' v
      else [ {| Field := name; Tag := tag_name c |} ]
  end.

Definition is_nil {A : Type} (s : slice A) : bool :=
  match s with
  | None => true
  | Some _ => false
  end.

(** The fields of [Talk] in declaration order. The tags of the struct hold
    the keys [json] and [gorm] only: no field has a [validate] key. *)
Definition Talk_fields (t : Talk) : list StructField :=
  [ {| Name := "ID"; validate_tag := []; value_of := UintValue (ID t) |};
    {| Name := "Title"; validate_tag := []; value_of := StringValue (Title t) |};
    {| Name := "DurationInMinutes"; validate_tag := [];
       value_of := UintValue (DurationInMinutes t) |};
    {| Name := "Language"; validate_tag := []; value_of := StringValue (Language t) |};
    {| Name := "Level"; validate_tag := []; value_of := StringValue (Level t) |};
    {| Name := "Persons"; validate_tag := []; value_of := SliceValue (is_nil (Persons t)) |};
    {| Name := "Topics"; validate_tag := []; value_of := SliceValue (is_nil (Topics t)) |};
    {| Name := "TalkDates"; validate_tag := [];
       value_of := SliceValue (is_nil (TalkDates t)) |} ].

Definition validate_fields (fs : list StructField) : list FieldError :=
  flat_map (fun f => check_field (Name f) (validate_tag f) (value_of f)) fs.

(** [db.validate.Struct(talk)] for [talk : *Talk]. *)
Definition validate_Struct (talk : ptr Talk) : option error :=
  match talk with
  | None => Some InvalidValidationError
  | Some t =>
      match validate_fields (Talk_fields t) with
      | [] => None
      | fes => Some (ValidationErrors fes)
      end
  end.

(** ** Storage *)

(** A row of table [talk]. *)
Record talk_row := {
  id : uint;
  title : string;
  duration_in_minutes : uint;
  language : string;
  level : string
}.

(** The tables around [talk]: the junction tables of the two many-to-many
    relations as pairs (talk_id, person_id) and (talk_id, topic_id), the rows
    of [talk_date], and the tables of the related entities. *)
Record Links := {
  talks_at : list (uint * uint);
  talk_topic : list (uint * uint);
  talk_date : list TalkDate;
  catalog : Catalog
}.

(** What the driver answers to one request of the handle: it serves it, or
    it reports an error after having delivered some rows of a result set. *)
Inductive outcome :=
| served
| failed (msg : string) (delivered : nat).

(** The database behind the handle. [talk_seq] is the auto-increment counter
    of [talk.id]. [driver] lists the outcomes of the coming requests; past
    its end every request is served. *)
Record Database := {
  talk : list talk_row;
  talk_seq : uint;
  links : Links;
  driver : list outcome
}.

Definition with_driver (d : Database) (os : list outcome) : Database :=
  {| talk := talk d; talk_seq := talk_seq d; links := links d; driver := os |}.

Definition roundtrip (d : Database) : outcome * Database :=
  match driver d with
  | [] => (served, d)
  | o :: os => (o, with_driver d os)
  end.

(** ** gorm: the handle and its search *)

(** The sub queries the store passes to [Where("id IN ?", ...)]. *)
Inductive subquery :=
| talk_date_talk_id (eventID : uint)
    (* SELECT talk_id FROM talk_date WHERE (event_id = ?) *)
| talks_at_talk_id (personID : uint).
    (* SELECT talk_id FROM talks_at WHERE (person_id = ?) *)

(** Conditions on a row of [talk]. *)
Inductive cond :=
| id_eq (v : uint)        (* id = ? *)
| id_in (q : subquery).   (* id IN ? *)

Record Search := {
  whereConditions : list cond;
  preload : list string;
  tableName : option string
}.

Definition Search0 : Search :=
  {| whereConditions := []; preload := []; tableName := None |}.

(** What [Value] points to: nothing, a [Talk], or a slice of talks. *)
Inductive value :=
| VNil
| VStruct (t : Talk)
| VSlice (ts : slice Talk).

Definition struct_of (v : value) : Talk :=
  match v with
  | VStruct t => t
  | _ => Talk0
  end.

Definition slice_of (v : value) : slice Talk :=
  match v with
  | VSlice ts => ts
  | _ => None
  end.

(** [*gorm.DB]. Every call of a chain yields a clone that shares the
    connection; here the database is threaded through the chain. *)
Record DB := {
  sqldb : Database;
  Value : value;
  Error : option error;
  search : Search
}.

Definition Model (v : Talk) (s : DB) : DB :=
  {| sqldb := sqldb s; Value := VStruct v; Error := Error s; search := search s |}.

Definition Where (c : cond) (s : DB) : DB :=
  {| sqldb := sqldb s; Value := Value s; Error := Error s;
     search := {| whereConditions := whereConditions (search s) ++ [c];
                  preload := preload (search s);
                  tableName := tableName (search s) |} |}.

Definition Preload (column : string) (s : DB) : DB :=
  {| sqldb := sqldb s; Value := Value s; Error := Error s;
     search := {| whereConditions := whereConditions (search s);
                  preload := preload (search s) ++ [column];
                  tableName := tableName (search s) |} |}.

Definition Table (name : string) (s : DB) : DB :=
  {| sqldb := sqldb s; Value := Value s; Error := Error s;
     search := {| whereConditions := whereConditions (search s);
                  preload := preload (search s);
                  tableName := Some name |} |}.

(** The result of a finisher: the clone whose [Value] is the destination. *)
Definition finish (s : DB) (d : Database) (v : value) (e : option error) : DB :=
  {| sqldb := d; Value := v; Error := e; search := search s |}.

(** ** gorm: conditions *)

Definition subquery_ids (l : Links) (q : subquery) : list uint :=
  match q with
  | talk_date_talk_id eventID =>
      map TalkDate_TalkID (filter (fun td => TalkDate_EventID td =? eventID) (talk_date l))
  | talks_at_talk_id personID =>
      map fst (filter (fun r => snd r =? personID) (talks_at l))
  end.

Definition eval_cond (l : Links) (c : cond) (r : talk_row) : bool :=
  match c with
  | id_eq v => id r =? v
  | id_in q => existsb (N.eqb (id r)) (subquery_ids l q)
  end.

(** [whereSQL]: a destination whose primary key is not zero adds the
    condition on that key in front of the conditions of the search. *)
Definition whereSQL (s : Search) (pk : uint) (inline : list cond) : list cond :=
  (if pk =? 0 then [] else [id_eq pk]) ++ whereConditions s ++ inline.

Definition matches (l : Links) (cs : list cond) (r : talk_row) : bool :=
  forallb (fun c => eval_cond l c r) cs.

(** The table a statement runs on: the one set by [Table], else the table of
    the model, which is [talk] (the handle names tables in the singular, as
    the literal table names of the source do). *)
Definition table_exists (s : Search) : bool :=
  match tableName s with
  | None => true
  | Some name => (name =? "talk")%string
  end.

(** ** gorm: scanning and preloading *)

Definition scan (r : talk_row) (out : Talk) : Talk :=
  {| ID := id r; Title := title r; DurationInMinutes := duration_in_minutes r;
     Language := language r; Level := level r;
     Persons := Persons out; Topics := Topics out; TalkDates := TalkDates out |}.

Definition row_of (t : Talk) : talk_row :=
  {| id := ID t; title := Title t; duration_in_minutes := DurationInMinutes t;
     language := Language t; level := Level t |}.

Definition persons_of (l : Links) (talkID : uint) : list Person :=
  flat_map (fun r => if fst r =? talkID
                     then match find_Person (catalog l) (snd r) with
                          | Some p => [p]
                          | None => []
                          end
                     else []) (talks_at l).

Definition topics_of (l : Links) (talkID : uint) : list Topic :=
  flat_map (fun r => if fst r =? talkID
                     then match find_Topic (catalog l) (snd r) with
                          | Some p => [p]
                          | None => []
                          end
                     else []) (talk_topic l).

Definition talk_dates_of (l : Links) (talkID : uint) : list TalkDate :=
  filter (fun td => TalkDate_TalkID td =? talkID) (talk_date l).

(** How one preload key fills the field it names. A nested key works on the
    elements its parent key has loaded. *)
Definition relation_loader (key : string) : option (Links -> Talk -> Talk) :=
  if (key =? "Persons")%string then
    Some (fun l t => set_Persons t (Some (persons_of l (ID t))))
  else if (key =? "Persons.Organization")%string then
    Some (fun l t =>
            set_Persons t (option_map (map (preload_Organization (catalog l))) (Persons t)))
  else if (key =? "Topics")%string then
    Some (fun l t => set_Topics t (Some (topics_of l (ID t))))
  else if (key =? "Topics.Children")%string then
    Some (fun l t =>
            set_Topics t (option_map (map (preload_Children (catalog l))) (Topics t)))
  else if (key =? "TalkDates")%string then
    Some (fun l t => set_TalkDates t (Some (talk_dates_of l (ID t))))
  else if (key =? "TalkDates.Room")%string then
    Some (fun l t =>
            set_TalkDates t (option_map (map (preload_Room (catalog l))) (TalkDates t)))
  else if (key =? "TalkDates.Event")%string then
    Some (fun l t =>
            set_TalkDates t (option_map (map (preload_Event (catalog l))) (TalkDates t)))
  else None.

(** The keys of a path: ["A.B"] has the keys ["A"] and ["A.B"]. *)
Fixpoint dot_prefixes (acc path : string) : list string :=
  match path with
  | EmptyString => [acc]
  | String c rest =>
      if Ascii.eqb c "."%char
      then acc :: dot_prefixes (acc ++ String c EmptyString) rest
      else dot_prefixes (acc ++ String c EmptyString) rest
  end.

(** [preloadCallback]: the paths are taken in order, each key is loaded once
    ([preloadedMap]), and a key that names no relation stops the callback
    with an error. The result is what the callback does to each talk of the
    destination. *)
Fixpoint preload_keys (l : Links) (keys preloaded : list string) (load : Talk -> Talk)
  : (Talk -> Talk) * option error :=
  match keys with
  | [] => (load, None)
  | key :: keys' =>
      if existsb (String.eqb key) preloaded then preload_keys l keys' preloaded load
      else match relation_loader key with
           | None => (load, Some (PreloadError key))
           | Some f => preload_keys l keys' (key :: preloaded) (fun t => f l (load t))
           end
  end.

Definition preloadCallback (l : Links) (paths : list string)
  : (Talk -> Talk) * option error :=
  preload_keys l (flat_map (dot_prefixes EmptyString) paths) [] (fun t => t).

(** ** gorm: saving the associations of a talk

    The three relations of [Talk] carry [association_autoupdate:false]. After
    the row of the talk is written, [saveAfterAssociationsCallback] visits
    the relation fields in declaration order and saves each one that is not
    blank: elements without a primary key are created, and the talk is linked
    to the elements through [talks_at], [talk_topic] and the [talk_id] of
    [talk_date]. How an element is written depends on the declarations of
    [Person], [Topic] and [TalkDate]; it is an interface here. None of the
    three writes table [talk]. *)
Class Associations := {
  save_Persons : Links -> uint -> list Person -> error + Links;
  save_Topics : Links -> uint -> list Topic -> error + Links;
  save_TalkDates : Links -> uint -> list TalkDate -> error + Links
}.

Context {A : Associations}.

Definition save_field {X : Type} (save : Links -> uint -> list X -> error + Links)
  (talkID : uint) (field : slice X) (l : Links) : error + Links :=
  match field with
  | None => inr l
  | Some xs => save l talkID xs
  end.

Definition and_then (r : error + Links) (k : Links -> error + Links) : error + Links :=
  match r with
  | inl e => inl e
  | inr l => k l
  end.

Definition saveAfterAssociationsCallback (l : Links) (t : Talk) : error + Links :=
  and_then (save_field save_Persons (ID t) (Persons t) l) (fun l1 =>
  and_then (save_field save_Topics (ID t) (Topics t) l1) (fun l2 =>
  save_field save_TalkDates (ID t) (TalkDates t) l2)).

(** ** gorm: queries *)

(** [ORDER BY id ASC LIMIT 1]. *)
Fixpoint lowest_id (rows : list talk_row) : option talk_row :=
  match rows with
  | [] => None
  | r :: rest =>
      match lowest_id rest with
      | Some r' => if id r' <? id r then Some r' else Some r
      | None => Some r
      end
  end.

Definition limit1 (ordered : bool) (rows : list talk_row) : option talk_row :=
  if ordered then lowest_id rows else hd_error rows.

Definition selected (s : Search) (d : Database) (pk : uint) (inline : list cond)
  : list talk_row :=
  filter (matches (links d) (whereSQL s pk inline)) (talk d).

Definition no_such_table : error := DriverError "no such table".

(** [queryCallback], [preloadCallback] for a destination that is a struct.
    A handle that already holds an error runs no statement. No row is
    [ErrRecordNotFound]. *)
Definition query_struct (ordered : bool) (out : Talk) (inline : list cond) (s : DB) : DB :=
  match Error s with
  | Some _ => finish s (sqldb s) (VStruct out) (Error s)
  | None =>
      match roundtrip (sqldb s) with
      | (failed msg delivered, d) =>
          let out' :=
            match delivered, limit1 ordered (selected (search s) d (ID out) inline) with
            | S _, Some r => scan r out
            | _, _ => out
            end in
          finish s d (VStruct out') (Some (DriverError msg))
      | (served, d) =>
          if table_exists (search s) then
            match limit1 ordered (selected (search s) d (ID out) inline) with
            | None => finish s d (VStruct out) (Some ErrRecordNotFound)
            | Some r =>
                let (load, perr) := preloadCallback (links d) (preload (search s)) in
                finish s d (VStruct (load (scan r out))) perr
            end
          else finish s d (VStruct out) (Some no_such_table)
      end
  end.

(** [Take(out)]: [LIMIT 1]. *)
Definition Take (out : Talk) (s : DB) : DB := query_struct false out [] s.

(** [First(out, id)]: the inline condition on the primary key, ordered by
    primary key, [LIMIT 1]. *)
Definition First (out : Talk) (id : uint) (s : DB) : DB :=
  query_struct true out [id_eq id] s.

(** [Find(&talks)] for a slice destination: the slice is made empty, then one
    element is appended per row; no row is no error. *)
Definition Find (s : DB) : DB :=
  match Error s with
  | Some _ => finish s (sqldb s) (VSlice (Some [])) (Error s)
  | None =>
      match roundtrip (sqldb s) with
      | (failed msg delivered, d) =>
          finish s d
            (VSlice (Some (map (fun r => scan r Talk0)
                               (firstn delivered (selected (search s) d 0 [])))))
            (Some (DriverError msg))
      | (served, d) =>
          if table_exists (search s) then
            let (load, perr) := preloadCallback (links d) (preload (search s)) in
            finish s d
              (VSlice (Some (map (fun r => load (scan r Talk0)) (selected (search s) d 0 []))))
              perr
          else finish s d (VSlice (Some [])) (Some no_such_table)
      end
  end.

(** ** gorm: writes

    [Create], [Update] and [Delete] run inside a transaction: when a callback
    reports an error, the tables are left as they were. *)

Definition with_talk (d : Database) (rows : list talk_row) (seq : uint) (l : Links)
  : Database :=
  {| talk := rows; talk_seq := seq; links := l; driver := driver d |}.

Definition duplicate_entry : error := DriverError "duplicate entry for key PRIMARY".

(** [Create(&v)]: the column [id] is part of the INSERT when the field is
    not zero; otherwise the engine draws the next value of the counter and
    gorm stores it in the field. *)
Definition Create (v : Talk) (s : DB) : DB :=
  match Error s with
  | Some _ => finish s (sqldb s) (VStruct v) (Error s)
  | None =>
      match roundtrip (sqldb s) with
      | (failed msg _, d) => finish s d (VStruct v) (Some (DriverError msg))
      | (served, d) =>
          if table_exists (search s) then
            let newID := if ID v =? 0 then talk_seq d + 1 else ID v in
            if existsb (fun r => id r =? newID) (talk d)
            then finish s d (VStruct v) (Some duplicate_entry)
            else
              let v' := set_ID v newID in
              match saveAfterAssociationsCallback (links d) v' with
              | inl e => finish s d (VStruct v') (Some e)
              | inr l =>
                  finish s
                    (with_talk d (talk d ++ [row_of v']) (N.max (talk_seq d) newID) l)
                    (VStruct v') None
              end
          else finish s d (VStruct v) (Some no_such_table)
      end
  end.

Definition blank_string (v : string) : bool := (v =? EmptyString)%string.
Definition blank_uint (v : uint) : bool := v =? 0.

(** [Update(talk)] with a struct: [convertInterfaceToMap] keeps the fields of
    [talk] that are not blank. [updatedAttrsWithValues] sets each of them on
    the value of the scope, [assign], and the columns among them make the SET
    clause, [set_columns]. *)
Definition assign (values v : Talk) : Talk :=
  {| ID := if blank_uint (ID values) then ID v else ID values;
     Title := if blank_string (Title values) then Title v else Title values;
     DurationInMinutes := if blank_uint (DurationInMinutes values)
                          then DurationInMinutes v else DurationInMinutes values;
     Language := if blank_string (Language values) then Language v else Language values;
     Level := if blank_string (Level values) then Level v else Level values;
     Persons := if is_nil (Persons values) then Persons v else Persons values;
     Topics := if is_nil (Topics values) then Topics v else Topics values;
     TalkDates := if is_nil (TalkDates values) then TalkDates v else TalkDates values |}.

Definition set_columns (values : Talk) (r : talk_row) : talk_row :=
  {| id := if blank_uint (ID values) then id r else ID values;
     title := if blank_string (Title values) then title r else Title values;
     duration_in_minutes := if blank_uint (DurationInMinutes values)
                            then duration_in_minutes r else DurationInMinutes values;
     language := if blank_string (Language values) then language r else Language values;
     level := if blank_string (Level values) then level r else Level values |}.

Definition hasUpdate (values : Talk) : bool :=
  negb (blank_uint (ID values) && blank_string (Title values)
        && blank_uint (DurationInMinutes values) && blank_string (Language values)
        && blank_string (Level values)).

(** [Update(talk)] on the handle returned by [Take]: the scope is over the
    [Value] of the handle. Without a column to set the remaining callbacks
    are skipped. The WHERE clause is [whereSQL] over the value of the scope
    after [assign]. *)
Definition Update (values : Talk) (s : DB) : DB :=
  match Error s with
  | Some _ => s
  | None =>
      let v := assign values (struct_of (Value s)) in
      if hasUpdate values then
        match roundtrip (sqldb s) with
        | (failed msg _, d) => finish s d (VStruct v) (Some (DriverError msg))
        | (served, d) =>
            if table_exists (search s) then
              let rows :=
                map (fun r => if matches (links d) (whereSQL (search s) (ID v) []) r
                              then set_columns values r else r) (talk d) in
              match saveAfterAssociationsCallback (links d) v with
              | inl e => finish s d (VStruct v) (Some e)
              | inr l => finish s (with_talk d rows (talk_seq d) l) (VStruct v) None
              end
            else finish s d (VStruct v) (Some no_such_table)
        end
      else finish s (sqldb s) (VStruct v) None
  end.

(** [Delete(&Talk{})]: [Talk] has no [DeletedAt] field, so the statement is
    DELETE FROM talk WHERE ... *)
Definition Delete (v : Talk) (s : DB) : DB :=
  match Error s with
  | Some _ => finish s (sqldb s) (VStruct v) (Error s)
  | None =>
      match roundtrip (sqldb s) with
      | (failed msg _, d) => finish s d (VStruct v) (Some (DriverError msg))
      | (served, d) =>
          if table_exists (search s) then
            finish s
              (with_talk d
                 (filter (fun r => negb (matches (links d) (whereSQL (search s) (ID v) []) r))
                         (talk d))
                 (talk_seq d) (links d))
              (VStruct v) None
          else finish s d (VStruct v) (Some no_such_table)
      end
  end.

(** ** The store *)

(** [TalkDBStore] embeds the handle; its logger has no part in the results.
    [gormDB db] is the embedded handle, a fresh chain on the database. *)
Definition TalkDBStore := Database.

Definition gormDB (db : TalkDBStore) : DB :=
  {| sqldb := db; Value := VNil; Error := None; search := Search0 |}.

Definition GetTalks (db : TalkDBStore) : TalkDBStore * slice Talk * option error :=
  let tx := gormDB db
    |> Preload "Persons"
    |> Preload "Persons.Organization"
    |> Preload "Topics"
    |> Preload "Topics.Children"
    |> Preload "TalkDates"
    |> Preload "TalkDates.Room"
    |> Preload "TalkDates.Event"
    |> Find in
  match Error tx with
  | Some err => (sqldb tx, Some [], Some err)
  | None => (sqldb tx, slice_of (Value tx), None)
  end.

Definition GetTalkByID (db : TalkDBStore) (id : uint)
  : TalkDBStore * ptr Talk * option error :=
  let tx := gormDB db
    |> Preload "Persons"
    |> Preload "Persons.Organization"
    |> Preload "Topics"
    |> Preload "Topics.Children"
    |> Preload "TalkDates"
    |> Preload "TalkDates.Room"
    |> Preload "TalkDates.Event"
    |> First Talk0 id in
  match Error tx with
  | Some err =>
      if IsRecordNotFoundError err
      then (sqldb tx, None, Some (TalkNotFoundError err))
      else (sqldb tx, None, Some err)
  | None => (sqldb tx, Some (struct_of (Value tx)), None)
  end.

(** [First(&talk, id)] scans into the talk of the caller, so [talk.ID] is
    read from the [Value] of the finished chain. A [nil] talk does not pass
    [validate.Struct]. *)
Definition UpdateTalk (db : TalkDBStore) (id : uint) (talk : ptr Talk)
  : TalkDBStore * ptr Talk * option error :=
  match validate_Struct talk, talk with
  | Some err, _ => (db, None, Some err)
  | None, None => (db, None, Some InvalidValidationError)
  | None, Some t =>
      let tx := gormDB db
        |> Model Talk0
        |> Where (id_eq id)
        |> Take Talk0
        |> Update t
        |> First t id in
      match Error tx with
      | Some err =>
          if IsRecordNotFoundError err
          then (sqldb tx, None, Some (TalkNotFoundError err))
          else (sqldb tx, None, Some err)
      | None => GetTalkByID (sqldb tx) (ID (struct_of (Value tx)))
      end
  end.

Definition AddTalk (db : TalkDBStore) (talk : ptr Talk)
  : TalkDBStore * ptr Talk * option error :=
  match validate_Struct talk, talk with
  | Some err, _ => (db, None, Some err)
  | None, None => (db, None, Some InvalidValidationError)
  | None, Some t =>
      let tx := gormDB db |> Create t in
      match Error tx with
      | Some err => (sqldb tx, None, Some err)
      | None => GetTalkByID (sqldb tx) (ID (struct_of (Value tx)))
      end
  end.

Definition DeleteTalkByID (db : TalkDBStore) (id : uint) : TalkDBStore * option error :=
  let tx := gormDB db
    |> Model Talk0
    |> Where (id_eq id)
    |> Take Talk0
    |> Delete Talk0 in
  match Error tx with
  | Some err =>
      if IsRecordNotFoundError err
      then (sqldb tx, Some (TalkNotFoundError err))
      else (sqldb tx, Some err)
  | None => (sqldb tx, None)
  end.

Definition GetTalksByEventID (db : TalkDBStore) (eventID : uint)
  : TalkDBStore * slice Talk * option error :=
  let tx := gormDB db
    |> Table "talk"
    |> Preload "Persons"
    |> Preload "Persons.Organization"
    |> Preload "Topics"
    |> Preload "Topics.Children"
    |> Preload "TalkDates"
    |> Preload "TalkDates.Event"
    |> Preload "TalkDates.Room"
    |> Where (id_in (talk_date_talk_id eventID))
    |> Find in
  match Error tx with
  | Some err => (sqldb tx, Some [], Some err)
  | None => (sqldb tx, slice_of (Value tx), None)
  end.

Definition GetTalksByPersonID (db : TalkDBStore) (personID : uint)
  : TalkDBStore * slice Talk * option error :=
  let tx := gormDB db
    |> Preload "Persons"
    |> Preload "Persons.Organization"
    |> Preload "Topics"
    |> Where (id_in (talks_at_talk_id personID))
    |> Find in
  match Error tx with
  | Some err => (sqldb tx, Some [], Some err)
  | None => (sqldb tx, slice_of (Value tx), None)
  end.

(** ** Vocabulary of the properties *)

(** The driver serves every request. *)
Definition healthy (d : Database) : Prop := driver d = [].

(** [id] is the primary key of [talk]. *)
Definition primary_key (d : Database) : Prop := NoDup (map id (talk d)).

(** The counter has passed every id in use. *)
Definition counter_ahead (d : Database) : Prop :=
  Forall (fun r => id r <= talk_seq d) (talk d).

Definition absent (d : Database) (i : uint) : Prop :=
  forall r, In r (talk d) -> id r <> i.

(** The two invariants of table [talk]. *)
Definition invariant (d : Database) : Prop := primary_key d /\ counter_ahead d.

(** Two databases hold the same tables; they may differ in what the driver
    will answer. *)
Definition same_content (d d' : Database) : Prop :=
  talk d' = talk d /\ talk_seq d' = talk_seq d /\ links d' = links d.

(** The relations as the seven preloads of [GetTalks] and [GetTalkByID]
    leave them ... *)
Definition preloaded (l : Links) (t : Talk) : Talk :=
  {| ID := ID t; Title := Title t; DurationInMinutes := DurationInMinutes t;
     Language := Language t; Level := Level t;
     Persons := Some (map (preload_Organization (catalog l)) (persons_of l (ID t)));
     Topics := Some (map (preload_Children (catalog l)) (topics_of l (ID t)));
     TalkDates := Some (map (preload_Event (catalog l))
                            (map (preload_Room (catalog l)) (talk_dates_of l (ID t)))) |}.

(** ... as those of [GetTalksByEventID] leave them, *)
Definition preloaded_by_event (l : Links) (t : Talk) : Talk :=
  {| ID := ID t; Title := Title t; DurationInMinutes := DurationInMinutes t;
     Language := Language t; Level := Level t;
     Persons := Some (map (preload_Organization (catalog l)) (persons_of l (ID t)));
     Topics := Some (map (preload_Children (catalog l)) (topics_of l (ID t)));
     TalkDates := Some (map (preload_Room (catalog l))
                            (map (preload_Event (catalog l)) (talk_dates_of l (ID t)))) |}.

(** ... and as the three preloads of [GetTalksByPersonID] leave them. *)
Definition preloaded_by_person (l : Links) (t : Talk) : Talk :=
  {| ID := ID t; Title := Title t; DurationInMinutes := DurationInMinutes t;
     Language := Language t; Level := Level t;
     Persons := Some (map (preload_Organization (catalog l)) (persons_of l (ID t)));
     Topics := Some (topics_of l (ID t));
     TalkDates := TalkDates t |}.

(** No partial result next to an error. *)
Definition no_partial_slice (r : TalkDBStore * slice Talk * option error) : Prop :=
  match r with
  | (_, ts, Some _) => ts = Some []
  | (_, _, None) => True
  end.

Definition no_partial_entity (r : TalkDBStore * ptr Talk * option error) : Prop :=
  match r with
  | (_, t, Some _) => t = None
  | (_, _, None) => True
  end.

(** The row of primary key [i]. *)
Definition has_id (i : uint) (r : talk_row) : bool := id r =? i.

(** The chain [db.Model(&Talk{}).Where("id = ?", id)] that [UpdateTalk] and
    [DeleteTalkByID] start with. *)
Definition by_id (i : uint) (d : Database) : DB :=
  gormDB d |> Model Talk0 |> Where (id_eq i).

(** The id of the row is among the ids the sub query selects. *)
Definition in_subquery (l : Links) (q : subquery) (r : talk_row) : bool :=
  existsb (N.eqb (id r)) (subquery_ids l q).

(** ** Sample data *)

Definition no_links (c : Catalog) : Links :=
  {| talks_at := []; talk_topic := []; talk_date := []; catalog := c |}.

Definition empty_db (c : Catalog) : Database :=
  {| talk := []; talk_seq := 0; links := no_links c; driver := [] |}.

Definition intro_row : talk_row :=
  {| id := 1; title := "Intro"; duration_in_minutes := 30; language := "en";
     level := "beginner" |}.

Definition one_talk (c : Catalog) : Database :=
  {| talk := [intro_row]; talk_seq := 1; links := no_links c; driver := [] |}.

(** A talk that sets one field at most: the level. *)
Definition only_level (lvl : TalkLevel) : Talk :=
  {| ID := 0; Title := EmptyString; DurationInMinutes := 0; Language := EmptyString;
     Level := lvl; Persons := None; Topics := None; TalkDates := None |}.

(** A talk that sets the duration only. *)
Definition only_duration (minutes : uint) : Talk :=
  {| ID := 0; Title := EmptyString; DurationInMinutes := minutes;
     Language := EmptyString; Level := EmptyString;
     Persons := None; Topics := None; TalkDates := None |}.

(** ** The error type [TalkNotFoundError] *)


Section Messages.

(** The messages of the errors of validator and of gorm's preloading. *)
Variable library_message : error -> string.


End Messages.

(** ** More vocabulary *)

(** The error the driver answers to the next request, if it fails it. *)
Definition next_error (d : Database) : option error :=
  match fst (roundtrip d) with
  | failed msg _ => Some (DriverError msg)
  | served => None
  end.

(** One request has gone to the driver and no table was written. *)
Definition one_read (d d' : Database) : Prop :=
  same_content d d' /\ driver d' = tl (driver d).


(** The id [Create] gives a talk: the next value of the counter for a zero
    [ID], the [ID] of the talk otherwise. *)
Definition new_id (d : Database) (t : Talk) : uint :=
  if ID t =? 0 then talk_seq d + 1 else ID t.

(** The database after the talk is inserted and its associations are saved
    as [l]. *)
Definition inserted (d : Database) (t : Talk) (l : Links) : Database :=
  with_talk d (talk d ++ [row_of (set_ID t (new_id d t))])
            (N.max (talk_seq d) (new_id d t)) l.

(** The database after the talk is merged over the rows of id [i]. *)
Definition merged (d : Database) (i : uint) (t : Talk) (l : Links) : Database :=
  with_talk d (map (fun x => if id x =? i then set_columns t x else x) (talk d))
            (talk_seq d) l.

(** Row by row, [rows'] has the ids of [rows] and differs from it in rows of
    id [i] at most. *)
Definition kept_except (i : uint) (rows rows' : list talk_row) : Prop :=
  Forall2 (fun r r' => id r' = id r /\ (id r <> i -> r' = r)) rows rows'.

End WithRelated.
End Data.

(** * The routing table (package main) *)

Module Main.

Local Open Scope string_scope.

(** ** net/http *)

Record Request := {
  Method : string;
  Path : string;
  Authorization : option string;   (* the Authorization header *)
  ContentType : option string      (* the Content-Type header *)
}.

Record Response := {
  StatusCode : nat;
  Body : string
}.

Definition Handler := Request -> Response.

(** [healthHandler]: 204 and no body. *)
Definition healthHandler : Handler :=
  fun _ => {| StatusCode := 204; Body := EmptyString |}.

(** ** alice: chains of middleware *)

(** [alice.Constructor]. *)
Definition Constructor := Handler -> Handler.

(** [alice.New(c1, ..., cn).Then(h)] is [c1 (... (cn h))]: a request passes
    the constructors in the order they are listed. *)
Definition Then (chain : list Constructor) (h : Handler) : Handler :=
  fold_right (fun c next => c next) h chain.

(** ** gorilla/mux *)

(** The path templates of the table: a literal path, or a prefix followed
    by the variable [{id:[0-9]+}]. *)
Inductive template :=
| Literal (path : string)
| WithID (prefix : string).

Record Route := {
  tpl : template;
  methods : list string;   (* empty: every method *)
  handler : Handler
}.

Definition is_digit (c : ascii) : bool :=
  Nat.leb 48 (nat_of_ascii c) && Nat.leb (nat_of_ascii c) 57.

Fixpoint all_digits (s : string) : bool :=
  match s with
  | EmptyString => true
  | String c s' => is_digit c && all_digits s'
  end.

Fixpoint strip_prefix (prefix s : string) : option string :=
  match prefix, s with
  | EmptyString, _ => Some s
  | String a prefix', String b s' =>
      if Ascii.eqb a b then strip_prefix prefix' s' else None
  | String _ _, EmptyString => None
  end.

Definition match_template (t : template) (path : string) : bool :=
  match t with
  | Literal p => path =? p
  | WithID prefix =>
      match strip_prefix prefix path with
      | Some rest => negb (rest =? EmptyString) && all_digits rest
      | None => false
      end
  end.

Definition match_method (ms : list string) (m : string) : bool :=
  match ms with
  | [] => true
  | _ => existsb (String.eqb m) ms
  end.

Definition notFound : Handler :=
  fun _ => {| StatusCode := 404; Body := "404 page not found" |}.

Definition methodNotAllowed : Handler :=
  fun _ => {| StatusCode := 405; Body := EmptyString |}.

(** [Router.Match]: the routes are tried in the order they were registered.
    A route whose path matches and whose method does not is remembered; when
    no route matches, the answer is 405 if one was remembered and 404
    otherwise. *)
Fixpoint Match (routes : list Route) (req : Request) (mismatch : bool) : Handler :=
  match routes with
  | [] => if mismatch then methodNotAllowed else notFound
  | r :: rest =>
      if match_template (tpl r) (Path req) then
        if match_method (methods r) (Method req) then handler r
        else Match rest req true
      else Match rest req mismatch
  end.

Definition ServeHTTP (routes : list Route) (req : Request) : Response :=
  Match routes req false req.

(** ** The table of [main] *)

Section Routes.

(** The handlers of [handlers.LocationsHandler] and the metrics handler. *)
Variables GetLocations GetLocation CreateLocation UpdateLocation DeleteLocation : Handler.
Variable metricsHandler : Handler.

(** [middleware.EnforceJsonContentType] and
    [middleware.OIDCMiddleware(provider, ctx2, verifier)]. *)
Variable EnforceJsonContentType : Constructor.
Variable OIDCMiddleware : Constructor.

(** The verifier of the OpenID Connect provider: signature, issuer, audience
    and expiry of a token. *)
Variable verify : string -> bool.

(** The body of the 401 answer. *)
Variable unauthorizedBody : string.

Definition unauthorized : Response :=
  {| StatusCode := 401; Body := unauthorizedBody |}.

Definition bearerToken (req : Request) : option string :=
  match Authorization req with
  | None => None
  | Some h => strip_prefix "Bearer " h
  end.

(** Modelled from the spec: [middleware.OIDC(provider, ctx2, verifier)], whose
    source is in package middleware. The bearer token is taken from the
    Authorization header; a missing or malformed header is answered 401; the
    token is verified and a failure is answered 401; on success the request
    goes unchanged to the next handler. *)
Definition OIDC : Constructor :=
  fun next req =>
    match bearerToken req with
    | None => unauthorized
    | Some token => if verify token then next req else unauthorized
    end.

Definition jsonChain : list Constructor := [EnforceJsonContentType; OIDCMiddleware].
Definition oidcChain : list Constructor := [OIDC].

Definition sm : list Route :=
  [ {| tpl := Literal "/"; methods := []; handler := healthHandler |};
    {| tpl := Literal "/locations"; methods := ["GET"];
       handler := Then oidcChain GetLocations |};
    {| tpl := WithID "/locations/"; methods := ["GET"]; handler := GetLocation |};
    {| tpl := Literal "/locations"; methods := ["POST"];
       handler := Then jsonChain CreateLocation |};
    {| tpl := WithID "/locations/"; methods := ["PUT"];
       handler := Then jsonChain UpdateLocation |};
    {| tpl := WithID "/locations/"; methods := ["DELETE"]; handler := DeleteLocation |};
    {| tpl := Literal "/demo/callback"; methods := []; handler := healthHandler |};
    {| tpl := Literal "/metrics"; methods := []; handler := metricsHandler |} ].

(** A request carries a valid bearer token. *)
Definition authenticated (req : Request) : Prop :=
  exists token, bearerToken req = Some token /\ verify token = true.

End Routes.

(** ** [openDB] *)

(** [config.Config], declared in package config: the fields [openDB] reads,
    each printed with the verb [%s]. *)
Record Config := {
  DbDriver : string;
  DbName : string;
  DbUser : string;
  DbPassword : string;
  DbHost : string;
  DbPort : string
}.

Section OpenDB.

(** [gorm.Open] and what it returns, a handle or an error. *)
Variable Opened : Type.
Variable gorm_Open : string -> string -> Opened.

(** [fmt.Sprintf("%s:%s@tcp(%s:%s)/%s?charset=utf8&parseTime=True&loc=Local", ...)]. *)
Definition mysqlUrl (cnf : Config) : string :=
  DbUser cnf ++ ":" ++ DbPassword cnf ++ "@tcp(" ++ DbHost cnf ++ ":" ++ DbPort cnf
  ++ ")/" ++ DbName cnf ++ "?charset=utf8&parseTime=True&loc=Local".

(** [openDB]: the lines it prints with [log.Println], and its result: its
    own error, or what [gorm.Open] returns. *)
Definition openDB (cnf : Config) : list string * (string + Opened) :=
  if DbDriver cnf =? "sqlite3" then
    let dbUrl := DbName cnf in
    (["Connecting to embedded sqlite3 database... file name: " ++ dbUrl],
     inr (gorm_Open (DbDriver cnf) dbUrl))
  else if DbDriver cnf =? "mysql" then
    let dbUrl := mysqlUrl cnf in
    (["Connecting to mysql database... uri: " ++ dbUrl],
     inr (gorm_Open (DbDriver cnf) dbUrl))
  else
    ([], inl ("error! Database driver must be one of: [sqlite3, mysql], was "
              ++ DbDriver cnf)).

End OpenDB.

(** [sub] occurs in [s]. *)
Definition occurs_in (sub s : string) : Prop :=
  exists before after, s = before ++ sub ++ after.


End Main.

(** * Sample instances *)

Module Example.
Import Data.

Local Open Scope string_scope.
Local Open Scope N_scope.

(** Related entities reduced to their key and one flag per relation that can
    be preloaded: a person is its id and whether its organization is loaded,
    a topic its id and whether its children are loaded, a talk date its
    talk id and event id and whether room and event are loaded. *)
Definition Plain : Related :=
  {| Person := uint * bool;
     Topic := uint * bool;
     TalkDate := (uint * uint) * (bool * bool);
     Catalog := unit;
     TalkDate_TalkID := fun td => fst (fst td);
     TalkDate_EventID := fun td => snd (fst td);
     find_Person := fun _ i => Some (i, false);
     find_Topic := fun _ i => Some (i, false);
     preload_Organization := fun _ p => (fst p, true);
     preload_Children := fun _ p => (fst p, true);
     preload_Room := fun _ td => (fst td, (true, snd (snd td)));
     preload_Event := fun _ td => (fst td, (fst (snd td), true)) |}.

#[export] Existing Instance Plain.

(** Saving a relation links the talk to each element. *)
Definition PlainSave : Associations :=
  {| save_Persons := fun l talkID ps =>
       inr {| talks_at := talks_at l ++ map (fun p => (talkID, fst p)) ps;
              talk_topic := talk_topic l; talk_date := talk_date l;
              catalog := catalog l |};
     save_Topics := fun l talkID ts =>
       inr {| talks_at := talks_at l;
              talk_topic := talk_topic l ++ map (fun p => (talkID, fst p)) ts;
              talk_date := talk_date l; catalog := catalog l |};
     save_TalkDates := fun l talkID tds =>
       inr {| talks_at := talks_at l; talk_topic := talk_topic l;
              talk_date := talk_date l
                           ++ map (fun td => ((talkID, snd (fst td)), snd td)) tds;
              catalog := catalog l |} |}.

#[export] Existing Instance PlainSave.

(** One talk, given by person 7 on topic 3 at event 9. *)
Definition conference : Database :=
  {| talk := [intro_row]; talk_seq := 1;
     links := {| talks_at := [(1, 7)]; talk_topic := [(1, 3)];
                 talk_date := [((1, 9), (false, false))]; catalog := tt |};
     driver := [] |}.

(** The same database behind a driver that fails the next request after one
    row. *)
Definition broken : Database :=
  with_driver conference [failed "connection reset" 1%nat].


(** A complete talk without an id. *)
Definition keynote : Talk :=
  {| ID := 0; Title := "Keynote"; DurationInMinutes := 60; Language := "en";
     Level := ExpertLevel; Persons := Some [(7, false)]; Topics := None;
     TalkDates := None |}.

(** The links of [conference] once person 7 also gives talk 2. *)
Definition keynote_links : Links :=
  {| talks_at := [(1, 7); (2, 7)]; talk_topic := [(1, 3)];
     talk_date := [((1, 9), (false, false))]; catalog := tt |}.

(** Requests. *)
Definition anonymous (m p : string) : Main.Request :=
  {| Main.Method := m; Main.Path := p; Main.Authorization := None;
     Main.ContentType := None |}.

(** Handlers that answer 200 with their name, and a verifier that accepts
    one token. *)
Definition named (name : string) : Main.Handler :=
  fun _ => {| Main.StatusCode := 200; Main.Body := name |}.

Definition one_token (token : string) : bool := (token =? "valid")%string.

Definition table : list Main.Route :=
  Main.sm (named "GetLocations") (named "GetLocation") (named "CreateLocation")
          (named "UpdateLocation") (named "DeleteLocation") (named "metrics")
          (fun next => next) (fun next => next) one_token "unauthorized".


(** [conference] behind a driver that serves one request and fails the
    next. *)
Definition flaky : Database :=
  with_driver conference [served; failed "connection reset" 0%nat].

(** A talk that carries the id of another talk. *)
Definition misfiled : Talk := set_ID (only_duration 45) 5.

End Example.

(** * Properties of the talk store *)

Import Data.
Open Scope string_scope.
Open Scope N_scope.

Section Properties.
Context {R : Related} {A : Associations}.

Lemma roundtrip_healthy (d : Database) : healthy d -> roundtrip d = (served, d).
Proof. unfold healthy, roundtrip. intros ->. reflexivity. Qed.

Lemma preloadCallback_GetTalks (l : Links) :
  preloadCallback l ["Persons"; "Persons.Organization"; "Topics"; "Topics.Children";
                     "TalkDates"; "TalkDates.Room"; "TalkDates.Event"]
  = (preloaded l, None).
Proof. reflexivity. Qed.

Lemma preloadCallback_by_event (l : Links) :
  preloadCallback l ["Persons"; "Persons.Organization"; "Topics"; "Topics.Children";
                     "TalkDates"; "TalkDates.Event"; "TalkDates.Room"]
  = (preloaded_by_event l, None).
Proof. reflexivity. Qed.

Lemma preloadCallback_by_person (l : Links) :
  preloadCallback l ["Persons"; "Persons.Organization"; "Topics"]
  = (preloaded_by_person l, None).
Proof. reflexivity. Qed.



Lemma lowest_id_same (i : uint) (rows : list talk_row) :
  Forall (fun r => id r = i) rows -> lowest_id rows = hd_error rows.
Proof.
  induction 1 as [|r rows Hr Hrows IH]; simpl; [reflexivity|].
  rewrite IH. destruct rows as [|r' rows']; simpl; [reflexivity|].
  inversion Hrows as [|? ? Hr' _]; subst.
  rewrite Hr'. rewrite N.ltb_irrefl. reflexivity.
Qed.

Lemma hd_filter_find (p : talk_row -> bool) (rows : list talk_row) :
  hd_error (filter p rows) = find p rows.
Proof.
  induction rows as [|r rows IH]; simpl; [reflexivity|].
  destruct (p r); simpl; [reflexivity|exact IH].
Qed.

Lemma limit1_has_id (ordered : bool) (i : uint) (rows : list talk_row) :
  limit1 ordered (filter (has_id i) rows) = find (has_id i) rows.
Proof.
  destruct ordered; simpl; [|apply hd_filter_find].
  rewrite (lowest_id_same i); [apply hd_filter_find|].
  apply Forall_forall. intros r Hr. apply filter_In in Hr.
  destruct Hr as [_ Hr]. apply N.eqb_eq. exact Hr.
Qed.

Lemma find_absent (i : uint) (rows : list talk_row) :
  (forall r, In r rows -> id r <> i) -> find (has_id i) rows = None.
Proof.
  intros H. destruct (find (has_id i) rows) as [r|] eqn:E; [|reflexivity].
  apply find_some in E. destruct E as [Hin Hid].
  apply N.eqb_eq in Hid. elim (H r Hin Hid).
Qed.

Lemma find_present (i : uint) (rows : list talk_row) (r : talk_row) :
  NoDup (map id rows) -> In r rows -> id r = i -> find (has_id i) rows = Some r.
Proof.
  induction rows as [|x rows IH]; simpl; intros Hnd Hin Hid; [contradiction|].
  inversion Hnd as [|? ? Hx Hnd']; subst.
  destruct Hin as [->|Hin].
  - unfold has_id. rewrite N.eqb_refl. reflexivity.
  - destruct (has_id (id r) x) eqn:E.
    + apply N.eqb_eq in E. elim Hx. rewrite E. apply in_map. exact Hin.
    + apply IH; auto.
Qed.

(** The conditions the store builds pin the primary key. *)
Lemma matches_1 (l : Links) (i : uint) (r : talk_row) :
  matches l [id_eq i] r = has_id i r.
Proof. unfold matches, has_id. simpl. apply andb_true_r. Qed.

Lemma matches_2 (l : Links) (i : uint) (r : talk_row) :
  matches l [id_eq i; id_eq i] r = has_id i r.
Proof. unfold matches, has_id. simpl. destruct (id r =? i); reflexivity. Qed.

Lemma matches_clash (l : Links) (i j : uint) (cs : list cond) (r : talk_row) :
  i <> j -> matches l (id_eq i :: id_eq j :: cs) r = false.
Proof.
  intros Hij. unfold matches. simpl.
  destruct (id r =? i) eqn:Ei; [|reflexivity].
  destruct (id r =? j) eqn:Ej; [|reflexivity].
  apply N.eqb_eq in Ei, Ej. congruence.
Qed.


Arguments preloadCallback : simpl never.
Arguments limit1 : simpl never.
Arguments roundtrip : simpl never.
Arguments whereSQL : simpl never.
Arguments matches : simpl never.

Lemma query_struct_pinned (ordered : bool) (out : Talk) (inline : list cond) (s : DB)
  (i : uint) :
  Error s = None -> healthy (sqldb s) -> table_exists (search s) = true ->
  (forall r, matches (links (sqldb s)) (whereSQL (search s) (ID out) inline) r = has_id i r) ->
  query_struct ordered out inline s =
    match find (has_id i) (talk (sqldb s)) with
    | Some r =>
        finish s (sqldb s)
          (VStruct (fst (preloadCallback (links (sqldb s)) (preload (search s))) (scan r out)))
          (snd (preloadCallback (links (sqldb s)) (preload (search s))))
    | None => finish s (sqldb s) (VStruct out) (Some ErrRecordNotFound)
    end.
Proof.
  intros He Hd Ht Hm. unfold query_struct. rewrite He, (roundtrip_healthy _ Hd), Ht.
  unfold selected. rewrite (filter_ext _ _ Hm), limit1_has_id.
  destruct (find (has_id i) (talk (sqldb s))); [|reflexivity].
  destruct (preloadCallback _ _); reflexivity.
Qed.

Lemma query_struct_none (ordered : bool) (out : Talk) (inline : list cond) (s : DB) :
  Error s = None -> healthy (sqldb s) -> table_exists (search s) = true ->
  (forall r, matches (links (sqldb s)) (whereSQL (search s) (ID out) inline) r = false) ->
  query_struct ordered out inline s = finish s (sqldb s) (VStruct out) (Some ErrRecordNotFound).
Proof.
  intros He Hd Ht Hm. unfold query_struct. rewrite He, (roundtrip_healthy _ Hd), Ht.
  unfold selected. rewrite (filter_ext _ (fun _ => false) Hm).
  assert (E : filter (fun _ : talk_row => false) (talk (sqldb s)) = []).
  { induction (talk (sqldb s)); simpl; auto. }
  rewrite E. destruct ordered; reflexivity.
Qed.

Lemma GetTalkByID_healthy (d : Database) (i : uint) :
  healthy d ->
  GetTalkByID d i =
    match find (has_id i) (talk d) with
    | Some r => (d, Some (preloaded (links d) (scan r Talk0)), None)
    | None => (d, None, Some (TalkNotFoundError ErrRecordNotFound))
    end.
Proof.
  intros H. unfold GetTalkByID, First.
  rewrite (query_struct_pinned _ _ _ _ i); try reflexivity; try exact H.
  - cbn [sqldb gormDB Preload].
    destruct (find (has_id i) (talk d)); reflexivity.
  - intros r. apply matches_1.
Qed.


Lemma validate_Struct_Some (t : Talk) : validate_Struct (Some t) = None.
Proof. reflexivity. Qed.

Lemma validate_Struct_passes (talk : ptr Talk) :
  validate_Struct talk = None -> exists t, talk = Some t.
Proof. destruct talk as [t|]; [eauto|discriminate]. Qed.


Lemma Take_healthy (d : Database) (i : uint) :
  healthy d ->
  Take Talk0 (by_id i d) =
    match find (has_id i) (talk d) with
    | Some r => finish (by_id i d) d (VStruct (scan r Talk0)) None
    | None => finish (by_id i d) d (VStruct Talk0) (Some ErrRecordNotFound)
    end.
Proof.
  intros H. unfold Take.
  rewrite (query_struct_pinned _ _ _ _ i); try reflexivity; try exact H.
  intros r. apply matches_1.
Qed.

Lemma filter_not_found (i : uint) (rows : list talk_row) :
  find (has_id i) rows = None -> filter (fun r => negb (has_id i r)) rows = rows.
Proof.
  induction rows as [|x rows IH]; simpl; [reflexivity|].
  destruct (has_id i x); simpl; [discriminate|]. intros E. rewrite IH; auto.
Qed.

Lemma find_filter_out (i : uint) (rows : list talk_row) :
  find (has_id i) (filter (fun r => negb (has_id i r)) rows) = None.
Proof.
  induction rows as [|x rows IH]; simpl; [reflexivity|].
  destruct (has_id i x) eqn:E; simpl; [exact IH|]. rewrite E. exact IH.
Qed.

Lemma DeleteTalkByID_healthy (d : Database) (i : uint) :
  healthy d ->
  DeleteTalkByID d i =
    match find (has_id i) (talk d) with
    | Some _ =>
        (with_talk d (filter (fun r => negb (has_id i r)) (talk d)) (talk_seq d) (links d),
         None)
    | None => (d, Some (TalkNotFoundError ErrRecordNotFound))
    end.
Proof.
  intros H. unfold DeleteTalkByID. fold (by_id i d). rewrite (Take_healthy d i H).
  destruct (find (has_id i) (talk d)) as [r|]; [|reflexivity].
  unfold Delete. cbn [Error finish sqldb]. rewrite (roundtrip_healthy d H).
  cbn. f_equal. f_equal. apply filter_ext. intros x.
  change (negb (matches (links d) [id_eq i] x) = negb (has_id i x)).
  rewrite matches_1. reflexivity.
Qed.

(** C8. Validation comes first in [AddTalk] and in [UpdateTalk]: a talk that
    fails [validate.Struct] is answered with the validation error and a nil
    entity, and the database is the one the call started from: no statement
    ran. For [UpdateTalk] this holds for every id, in storage or not. *)
Theorem validation_precedes_storage
  (db : TalkDBStore) (id : uint) (talk : ptr Talk) (err : error) :
  validate_Struct talk = Some err ->
  AddTalk db talk = (db, None, Some err)
  /\ UpdateTalk db id talk = (db, None, Some err).
Proof.
  intros H. unfold AddTalk, UpdateTalk. rewrite H. split; reflexivity.
Qed.

(** C2. On a database that serves the requests, an id without a row in
    [talk] makes [GetTalkByID], [UpdateTalk] (with a talk that passes
    validation) and [DeleteTalkByID] fail with [TalkNotFoundError] around
    [gorm.ErrRecordNotFound]; the error is of kind [NotFound] and the tables
    are untouched. *)
Theorem absent_id_is_NotFound (d : TalkDBStore) (i : uint) :
  healthy d -> absent d i ->
  let not_found := TalkNotFoundError ErrRecordNotFound in
  kind_of not_found = NotFound
  /\ GetTalkByID d i = (d, None, Some not_found)
  /\ (forall talk, validate_Struct talk = None ->
                   UpdateTalk d i talk = (d, None, Some not_found))
  /\ DeleteTalkByID d i = (d, Some not_found).
Proof.
  intros H Habs not_found.
  assert (E : find (has_id i) (talk d) = None) by (apply find_absent; exact Habs).
  split; [reflexivity|]. split; [|split].
  - rewrite (GetTalkByID_healthy d i H), E. reflexivity.
  - intros talk Hv. destruct (validate_Struct_passes talk Hv) as [t ->].
    unfold UpdateTalk. rewrite validate_Struct_Some. fold (by_id i d).
    rewrite (Take_healthy d i H), E. reflexivity.
  - rewrite (DeleteTalkByID_healthy d i H), E. reflexivity.
Qed.

(** C6. [DeleteTalkByID] removes the row from [talk]: on a database that
    serves the requests, the table after the call is the old one without the
    rows of that id, and when the id had a row the call returns no error.
    From then on the id is absent, and deleting it again answers
    [TalkNotFoundError] around [gorm.ErrRecordNotFound] and leaves the
    database as it is, so every further repetition answers the same; so does
    [GetTalkByID]. *)
Theorem delete_is_hard_and_repeatable (d : TalkDBStore) (i : uint) :
  healthy d ->
  let d' := fst (DeleteTalkByID d i) in
  let not_found := TalkNotFoundError ErrRecordNotFound in
  talk d' = filter (fun r => negb (id r =? i)) (talk d)
  /\ ((exists r, In r (talk d) /\ id r = i) -> snd (DeleteTalkByID d i) = None)
  /\ absent d' i
  /\ DeleteTalkByID d' i = (d', Some not_found)
  /\ (forall n, Nat.iter n (fun x => fst (DeleteTalkByID x i)) d' = d')
  /\ GetTalkByID d' i = (d', None, Some not_found).
Proof.
  intros H d' not_found.
  assert (Hd' : healthy d' /\ talk d' = filter (fun r => negb (has_id i r)) (talk d)).
  { unfold d'. rewrite (DeleteTalkByID_healthy d i H).
    destruct (find (has_id i) (talk d)) eqn:E; simpl.
    - split; [exact H|reflexivity].
    - split; [exact H|]. symmetry. apply filter_not_found. exact E. }
  destruct Hd' as [Hh Ht].
  assert (E' : find (has_id i) (talk d') = None).
  { rewrite Ht. apply find_filter_out. }
  assert (Hdel : DeleteTalkByID d' i = (d', Some not_found)).
  { rewrite (DeleteTalkByID_healthy d' i Hh), E'. reflexivity. }
  split; [exact Ht|]. split; [|split; [|split; [|split]]].
  - intros [r [Hin Hid]]. rewrite (DeleteTalkByID_healthy d i H).
    destruct (find (has_id i) (talk d)) eqn:E; [reflexivity|].
    apply (find_none _ _ E) in Hin. unfold has_id in Hin.
    apply N.eqb_neq in Hin. contradiction.
  - intros r Hin Hid. apply (find_none _ _ E') in Hin.
    unfold has_id in Hin. apply N.eqb_neq in Hin. contradiction.
  - exact Hdel.
  - induction n as [|n IH]; simpl; [reflexivity|]. rewrite IH, Hdel. reflexivity.
  - rewrite (GetTalkByID_healthy d' i Hh), E'. reflexivity.
Qed.


Lemma Find_healthy (s : DB) :
  Error s = None -> healthy (sqldb s) -> table_exists (search s) = true ->
  Find s =
    finish s (sqldb s)
      (VSlice (Some (map (fun r => fst (preloadCallback (links (sqldb s)) (preload (search s)))
                                       (scan r Talk0))
                         (selected (search s) (sqldb s) 0 []))))
      (snd (preloadCallback (links (sqldb s)) (preload (search s)))).
Proof.
  intros He Hd Ht. unfold Find. rewrite He, (roundtrip_healthy _ Hd), Ht.
  destruct (preloadCallback _ _); reflexivity.
Qed.


Lemma matches_in (l : Links) (q : subquery) (r : talk_row) :
  matches l [id_in q] r = in_subquery l q r.
Proof. unfold matches, in_subquery. simpl. apply andb_true_r. Qed.

Lemma filter_all (rows : list talk_row) : filter (fun _ => true) rows = rows.
Proof. induction rows as [|x rows IH]; simpl; [|rewrite IH]; reflexivity. Qed.

Lemma GetTalks_healthy (d : Database) :
  healthy d ->
  GetTalks d = (d, Some (map (fun r => preloaded (links d) (scan r Talk0)) (talk d)), None).
Proof.
  intros H. unfold GetTalks. rewrite Find_healthy; try reflexivity; try exact H.
  cbn [sqldb gormDB Preload]. unfold selected.
  rewrite (filter_ext _ (fun _ => true)); [|reflexivity].
  rewrite filter_all. reflexivity.
Qed.

Lemma GetTalksByEventID_healthy (d : Database) (eventID : uint) :
  healthy d ->
  GetTalksByEventID d eventID =
    (d, Some (map (fun r => preloaded_by_event (links d) (scan r Talk0))
                  (filter (in_subquery (links d) (talk_date_talk_id eventID)) (talk d))),
     None).
Proof.
  intros H. unfold GetTalksByEventID. rewrite Find_healthy; try reflexivity; try exact H.
  cbn [sqldb gormDB Preload Where Table]. unfold selected.
  rewrite (filter_ext _ _ (matches_in (links d) (talk_date_talk_id eventID))).
  reflexivity.
Qed.

Lemma GetTalksByPersonID_healthy (d : Database) (personID : uint) :
  healthy d ->
  GetTalksByPersonID d personID =
    (d, Some (map (fun r => preloaded_by_person (links d) (scan r Talk0))
                  (filter (in_subquery (links d) (talks_at_talk_id personID)) (talk d))),
     None).
Proof.
  intros H. unfold GetTalksByPersonID. rewrite Find_healthy; try reflexivity; try exact H.
  cbn [sqldb gormDB Preload Where Table]. unfold selected.
  rewrite (filter_ext _ _ (matches_in (links d) (talks_at_talk_id personID))).
  reflexivity.
Qed.

Lemma in_subquery_talk_date (l : Links) (eventID : uint) (r : talk_row) :
  in_subquery l (talk_date_talk_id eventID) r = true <->
  exists td, In td (talk_date l) /\ TalkDate_TalkID td = id r /\ TalkDate_EventID td = eventID.
Proof.
  unfold in_subquery, subquery_ids. rewrite existsb_exists. split.
  - intros [x [Hin Hx]]. apply N.eqb_eq in Hx. apply in_map_iff in Hin.
    destruct Hin as [td [Htd Hin]]. apply filter_In in Hin. destruct Hin as [Hin He].
    apply N.eqb_eq in He. exists td. repeat split; congruence.
  - intros [td [Hin [Ht He]]]. exists (id r). split; [|apply N.eqb_refl].
    apply in_map_iff. exists td. split; [exact Ht|].
    apply filter_In. split; [exact Hin|]. apply N.eqb_eq. exact He.
Qed.

Lemma in_subquery_talks_at (l : Links) (personID : uint) (r : talk_row) :
  in_subquery l (talks_at_talk_id personID) r = true <->
  In (id r, personID) (talks_at l).
Proof.
  unfold in_subquery, subquery_ids. rewrite existsb_exists. split.
  - intros [x [Hin Hx]]. apply N.eqb_eq in Hx. apply in_map_iff in Hin.
    destruct Hin as [[a b] [Hab Hin]]. apply filter_In in Hin. destruct Hin as [Hin He].
    apply N.eqb_eq in He. simpl in *. subst. exact Hin.
  - intros Hin. exists (id r). split; [|apply N.eqb_refl].
    apply in_map_iff. exists (id r, personID). split; [reflexivity|].
    apply filter_In. split; [exact Hin|]. apply N.eqb_refl.
Qed.

Lemma filter_nothing (p : talk_row -> bool) (rows : list talk_row) :
  (forall r, In r rows -> p r = false) -> filter p rows = [].
Proof.
  induction rows as [|x rows IH]; simpl; intros H; [reflexivity|].
  rewrite (H x (or_introl eq_refl)). apply IH. intros r Hr. apply H. right. exact Hr.
Qed.

(** C7. On a database that serves the requests, [GetTalksByEventID] returns,
    in table order and each once, the rows of [talk] whose id is the
    [talk_id] of a [talk_date] row with that [event_id], and
    [GetTalksByPersonID] those whose id is paired with that person in
    [talks_at]; both return no error and leave the database as it is. An id
    that no such row mentions yields the empty sequence and no error. *)
Theorem talks_by_related_id (d : TalkDBStore) (eventID personID : uint) :
  healthy d ->
  (exists rows,
      GetTalksByEventID d eventID
      = (d, Some (map (fun r => preloaded_by_event (links d) (scan r Talk0)) rows), None)
      /\ (exists p, rows = filter p (talk d)
                    /\ forall r, p r = true <->
                                 exists td, In td (talk_date (links d))
                                            /\ TalkDate_TalkID td = id r
                                            /\ TalkDate_EventID td = eventID))
  /\ (exists rows,
      GetTalksByPersonID d personID
      = (d, Some (map (fun r => preloaded_by_person (links d) (scan r Talk0)) rows), None)
      /\ (exists p, rows = filter p (talk d)
                    /\ forall r, p r = true <-> In (id r, personID) (talks_at (links d))))
  /\ ((forall td, In td (talk_date (links d)) -> TalkDate_EventID td <> eventID) ->
      GetTalksByEventID d eventID = (d, Some [], None))
  /\ ((forall talkID, ~ In (talkID, personID) (talks_at (links d))) ->
      GetTalksByPersonID d personID = (d, Some [], None)).
Proof.
  intros H. split; [|split; [|split]].
  - eexists. split; [apply (GetTalksByEventID_healthy d eventID H)|].
    eexists. split; [reflexivity|]. intros r. apply in_subquery_talk_date.
  - eexists. split; [apply (GetTalksByPersonID_healthy d personID H)|].
    eexists. split; [reflexivity|]. intros r. apply in_subquery_talks_at.
  - intros Hno. rewrite (GetTalksByEventID_healthy d eventID H).
    rewrite filter_nothing; [reflexivity|]. intros r _.
    destruct (in_subquery _ _ r) eqn:E; [|reflexivity].
    apply in_subquery_talk_date in E. destruct E as [td [Hin [_ He]]].
    elim (Hno td Hin He).
  - intros Hno. rewrite (GetTalksByPersonID_healthy d personID H).
    rewrite filter_nothing; [reflexivity|]. intros r _.
    destruct (in_subquery _ _ r) eqn:E; [|reflexivity].
    apply in_subquery_talks_at in E. elim (Hno _ E).
Qed.



Lemma roundtrip_failed (d : Database) (msg : string) (n : nat) (rest : list outcome) :
  driver d = failed msg n :: rest -> roundtrip d = (failed msg n, with_driver d rest).
Proof. unfold roundtrip. intros ->. reflexivity. Qed.

Lemma GetTalkByID_no_partial (d : Database) (i : uint) :
  no_partial_entity (GetTalkByID d i).
Proof.
  unfold GetTalkByID. cbv zeta.
  match goal with |- context [Error ?tx] => destruct (Error tx) as [e|] end;
    [destruct (IsRecordNotFoundError e)|]; simpl; auto.
Qed.

Ltac slice_case :=
  cbv zeta;
  match goal with |- context [Error ?tx] => destruct (Error tx) end; simpl; auto.

(** C9. Whatever the database answers, an error never comes with a partial
    result: when one of the three list operations returns an error, the
    sequence it returns is the empty, non-nil one, and when [GetTalkByID],
    [AddTalk] or [UpdateTalk] returns an error, the entity it returns is
    nil. When the driver fails the first request of the call with [msg], the
    call returns that error: the list operations with the empty sequence
    although the driver had delivered rows, [GetTalkByID] and, for a talk
    that passes validation, [AddTalk] and [UpdateTalk] with the nil
    entity. *)
Theorem no_partial_result_with_error
  (d : TalkDBStore) (i eventID personID : uint) (talk : ptr Talk) :
  (no_partial_slice (GetTalks d)
   /\ no_partial_slice (GetTalksByEventID d eventID)
   /\ no_partial_slice (GetTalksByPersonID d personID)
   /\ no_partial_entity (GetTalkByID d i)
   /\ no_partial_entity (AddTalk d talk)
   /\ no_partial_entity (UpdateTalk d i talk))
  /\ (forall msg n rest, driver d = failed msg n :: rest ->
        let d' := with_driver d rest in
        let err := Some (DriverError msg) in
        GetTalks d = (d', Some [], err)
        /\ GetTalksByEventID d eventID = (d', Some [], err)
        /\ GetTalksByPersonID d personID = (d', Some [], err)
        /\ GetTalkByID d i = (d', None, err)
        /\ (validate_Struct talk = None ->
            AddTalk d talk = (d', None, err) /\ UpdateTalk d i talk = (d', None, err))).
Proof.
  split.
  - split; [unfold GetTalks; slice_case|].
    split; [unfold GetTalksByEventID; slice_case|].
    split; [unfold GetTalksByPersonID; slice_case|].
    split; [apply GetTalkByID_no_partial|].
    split.
    + unfold AddTalk. destruct (validate_Struct talk); [simpl; auto|].
      destruct talk as [t|]; [|simpl; auto]. cbv zeta.
      match goal with |- context [Error ?tx] => destruct (Error tx) end;
        [simpl; auto|apply GetTalkByID_no_partial].
    + unfold UpdateTalk. destruct (validate_Struct talk); [simpl; auto|].
      destruct talk as [t|]; [|simpl; auto]. cbv zeta.
      match goal with |- context [Error ?tx] => destruct (Error tx) as [e|] end;
        [destruct (IsRecordNotFoundError e); simpl; auto|apply GetTalkByID_no_partial].
  - intros msg n rest Hd d' err.
    pose proof (roundtrip_failed d msg n rest Hd) as Hr.
    split; [unfold GetTalks, Find; cbn [Error sqldb gormDB Preload]; rewrite Hr; reflexivity|].
    split; [unfold GetTalksByEventID, Find; cbn [Error sqldb gormDB Preload Where Table];
            rewrite Hr; reflexivity|].
    split; [unfold GetTalksByPersonID, Find; cbn [Error sqldb gormDB Preload Where Table];
            rewrite Hr; reflexivity|].
    split; [unfold GetTalkByID, First, query_struct; cbn [Error sqldb gormDB Preload];
            rewrite Hr; reflexivity|].
    intros Hv. destruct (validate_Struct_passes talk Hv) as [t ->]. split.
    + unfold AddTalk, Create. rewrite validate_Struct_Some.
      cbn [Error sqldb gormDB]. rewrite Hr. reflexivity.
    + unfold UpdateTalk, Take, query_struct. rewrite validate_Struct_Some.
      cbn [Error sqldb gormDB Model Where]. rewrite Hr. reflexivity.
Qed.


Lemma matches_pk (l : Links) (pk i : uint) (cs : list cond) (r : talk_row) :
  pk = 0 \/ pk = i ->
  matches l ((if pk =? 0 then [] else [id_eq pk]) ++ id_eq i :: cs) r
  = matches l (id_eq i :: cs) r.
Proof.
  intros Hpk. destruct (pk =? 0) eqn:E; [reflexivity|].
  destruct Hpk as [->| ->]; [discriminate|].
  unfold matches. simpl. destruct (id r =? i); reflexivity.
Qed.

Lemma ID_assign (t : Talk) (r : talk_row) (i : uint) :
  ID t = 0 \/ ID t = i -> id r = i -> ID (assign t (scan r Talk0)) = i.
Proof.
  intros [E|E] Hr; unfold assign, blank_uint; simpl; rewrite E; simpl; [exact Hr|].
  destruct (i =? 0) eqn:Ei; [|reflexivity]. apply N.eqb_eq in Ei. congruence.
Qed.

Lemma id_set_columns (t : Talk) (r : talk_row) (i : uint) :
  ID t = 0 \/ ID t = i -> id r = i -> id (set_columns t r) = i.
Proof.
  intros [E|E] Hr; unfold set_columns, blank_uint; simpl; rewrite E; simpl; [exact Hr|].
  destruct (i =? 0) eqn:Ei; [|reflexivity]. apply N.eqb_eq in Ei. congruence.
Qed.

Lemma set_columns_blank (t : Talk) (r : talk_row) :
  hasUpdate t = false -> set_columns t r = r.
Proof.
  unfold hasUpdate, set_columns. intros H. apply negb_false_iff in H.
  repeat (apply andb_true_iff in H; destruct H as [H ?]).
  destruct r. simpl. repeat match goal with E : _ = true |- _ => rewrite E; clear E end.
  reflexivity.
Qed.

Lemma find_map_pinned (i : uint) (f : talk_row -> talk_row) (rows : list talk_row)
  (r : talk_row) :
  NoDup (map id rows) -> In r rows -> id r = i -> id (f r) = i ->
  find (has_id i) (map (fun x => if has_id i x then f x else x) rows) = Some (f r).
Proof.
  induction rows as [|x rows IH]; simpl; intros Hnd Hin Hid Hf; [contradiction|].
  inversion Hnd as [|? ? Hx Hnd']; subst.
  destruct Hin as [->|Hin].
  - unfold has_id at 2. rewrite N.eqb_refl. unfold has_id. rewrite Hf, N.eqb_refl.
    reflexivity.
  - destruct (has_id (id r) x) eqn:E.
    + apply N.eqb_eq in E. elim Hx. rewrite E. apply in_map. exact Hin.
    + rewrite E. apply IH; auto.
Qed.


Lemma counter_ahead_absent (d : Database) :
  counter_ahead d -> absent d (talk_seq d + 1).
Proof.
  unfold counter_ahead, absent. intros H r Hin. rewrite Forall_forall in H.
  specialize (H r Hin). lia.
Qed.

Lemma existsb_absent (d : Database) (i : uint) :
  absent d i -> existsb (fun r => id r =? i) (talk d) = false.
Proof.
  intros H. destruct (existsb _ _) eqn:E; [|reflexivity].
  apply existsb_exists in E. destruct E as [r [Hin Hr]].
  apply N.eqb_eq in Hr. elim (H r Hin Hr).
Qed.


(** The case the statement above leaves out: a talk whose [ID] is neither
    zero nor the id of the call. The key of the talk joins the conditions of
    the UPDATE and of the SELECT that follows, no row satisfies both, and the
    call answers [TalkNotFoundError] although the row of the id exists; the
    rows of [talk] are as before. *)
Lemma UpdateTalk_with_other_ID_is_NotFound
  (d : TalkDBStore) (i : uint) (t : Talk) (r : talk_row) (l' : Links) :
  healthy d -> primary_key d -> In r (talk d) -> id r = i ->
  ID t <> 0 -> ID t <> i ->
  saveAfterAssociationsCallback (links d) (assign t (scan r Talk0)) = inr l' ->
  UpdateTalk d i (Some t)
  = (with_talk d (talk d) (talk_seq d) l', None, Some (TalkNotFoundError ErrRecordNotFound)).
Proof.
  intros H Hpk Hin Hid Hnz Hne Hsave.
  assert (Hfind : find (has_id i) (talk d) = Some r) by (apply find_present; assumption).
  assert (Hb : blank_uint (ID t) = false) by (apply N.eqb_neq; exact Hnz).
  assert (Hu : hasUpdate t = true) by (unfold hasUpdate; rewrite Hb; reflexivity).
  assert (Hv : ID (assign t (scan r Talk0)) = ID t)
    by (unfold assign; cbn [ID]; rewrite Hb; reflexivity).
  unfold UpdateTalk. rewrite validate_Struct_Some. fold (by_id i d).
  rewrite (Take_healthy d i H), Hfind.
  assert (Hupd : Update t (finish (by_id i d) d (VStruct (scan r Talk0)) None)
                 = finish (by_id i d) (with_talk d (talk d) (talk_seq d) l')
                          (VStruct (assign t (scan r Talk0))) None).
  { unfold Update. cbn [Error finish Value struct_of sqldb]. rewrite Hu.
    rewrite (roundtrip_healthy d H). cbn [search finish].
    replace (table_exists (search (by_id i d))) with true by reflexivity.
    rewrite Hsave. unfold finish. cbn [search]. f_equal.
    unfold with_talk. f_equal. rewrite <- (map_id (talk d)) at 2.
    apply map_ext. intros x. rewrite Hv.
    change (whereSQL (search (by_id i d)) (ID t) [])
      with ((if ID t =? 0 then [] else [id_eq (ID t)]) ++ id_eq i :: [])%list.
    unfold blank_uint in Hb. rewrite Hb. cbn [app].
    rewrite matches_clash by exact Hne. reflexivity. }
  rewrite Hupd. unfold First. rewrite query_struct_none; try reflexivity.
  - exact H.
  - intros x. cbn [sqldb finish search].
    change (whereSQL (search (by_id i d)) (ID t) [id_eq i])
      with ((if ID t =? 0 then [] else [id_eq (ID t)]) ++ id_eq i :: [id_eq i])%list.
    unfold blank_uint in Hb. rewrite Hb. cbn [app].
    apply matches_clash. exact Hne.
Qed.


(** ** The invariants are kept

    The two conditions the properties above assume of the table, [id] a
    primary key and the counter ahead of every id, hold of an empty table
    and are kept by every method of the store, whatever the driver does. *)

Lemma invariant_same_content (d d' : Database) :
  same_content d d' -> invariant d -> invariant d'.
Proof.
  unfold same_content, invariant, primary_key, counter_ahead.
  intros [-> [-> _]]. auto.
Qed.

Lemma same_content_refl (d : Database) : same_content d d.
Proof. repeat split. Qed.

Lemma roundtrip_content (d : Database) : same_content d (snd (roundtrip d)).
Proof. unfold roundtrip. destruct (driver d); repeat split. Qed.

Lemma query_struct_content (ordered : bool) (out : Talk) (inline : list cond) (s : DB) :
  same_content (sqldb s) (sqldb (query_struct ordered out inline s)).
Proof.
  unfold query_struct. destruct (Error s); [apply same_content_refl|].
  pose proof (roundtrip_content (sqldb s)) as Hc.
  destruct (roundtrip (sqldb s)) as [[|msg n] d']; simpl in Hc.
  - destruct (table_exists (search s)); [|exact Hc].
    destruct (limit1 _ _); [|exact Hc].
    destruct (preloadCallback _ _). exact Hc.
  - exact Hc.
Qed.

Lemma GetTalkByID_content (d : Database) (i : uint) :
  same_content d (fst (fst (GetTalkByID d i))).
Proof.
  unfold GetTalkByID, First. cbv zeta.
  match goal with |- context [query_struct ?o ?out ?inl ?s] =>
    pose proof (query_struct_content o out inl s) as Hc;
    destruct (Error (query_struct o out inl s)) as [e|]
  end; [destruct (IsRecordNotFoundError e)|]; exact Hc.
Qed.

Lemma invariant_empty (c : Catalog) : invariant (empty_db c).
Proof. split; constructor. Qed.

Lemma matched_id (l : Links) (s : Search) (values v : Talk) (r : talk_row) :
  ID v = (if blank_uint (ID values) then ID v else ID values) ->
  matches l (whereSQL s (ID v) []) r = true ->
  id (set_columns values r) = id r.
Proof.
  intros Hv Hm. unfold set_columns. cbn [id].
  destruct (blank_uint (ID values)) eqn:Eb; [reflexivity|].
  unfold whereSQL in Hm. rewrite Hv in Hm. unfold blank_uint in Eb. rewrite Eb in Hm.
  unfold matches in Hm. simpl in Hm. apply andb_true_iff in Hm. destruct Hm as [Hm _].
  apply N.eqb_eq in Hm. congruence.
Qed.

Lemma Create_invariant (v : Talk) (s : DB) :
  invariant (sqldb s) -> invariant (sqldb (Create v s)).
Proof.
  intros Hi. unfold Create. destruct (Error s); [exact Hi|].
  pose proof (roundtrip_content (sqldb s)) as Hc.
  destruct (roundtrip (sqldb s)) as [[|msg n] d']; simpl in Hc;
    [|exact (invariant_same_content _ _ Hc Hi)].
  pose proof (invariant_same_content _ _ Hc Hi) as Hi'.
  destruct (table_exists (search s)); [|exact Hi'].
  destruct (existsb _ (talk d')) eqn:Ee; [exact Hi'|].
  destruct (saveAfterAssociationsCallback _ _); [exact Hi'|].
  cbn [sqldb finish]. destruct Hi' as [Hpk Hca].
  set (newID := if ID v =? 0 then talk_seq d' + 1 else ID v) in *.
  unfold invariant, primary_key, counter_ahead in *. cbn [talk talk_seq with_talk].
  split.
  - rewrite map_app. simpl. apply NoDup_app; [exact Hpk|repeat constructor; intros []|].
    intros x Hx [<-|[]]. apply in_map_iff in Hx. destruct Hx as [r [Hr Hin]].
    assert (Ht : existsb (fun r0 => id r0 =? newID) (talk d') = true).
    { apply existsb_exists. exists r. split; [exact Hin|]. apply N.eqb_eq. exact Hr. }
    congruence.
  - apply Forall_app. split.
    + rewrite Forall_forall in *. intros r Hr. specialize (Hca r Hr). lia.
    + constructor; [|constructor]. cbn [id row_of ID set_ID]. lia.
Qed.

Lemma Update_invariant (values : Talk) (s : DB) :
  invariant (sqldb s) -> invariant (sqldb (Update values s)).
Proof.
  intros Hi. unfold Update. destruct (Error s); [exact Hi|].
  destruct (hasUpdate values); [|exact Hi].
  pose proof (roundtrip_content (sqldb s)) as Hc.
  destruct (roundtrip (sqldb s)) as [[|msg n] d']; simpl in Hc;
    [|exact (invariant_same_content _ _ Hc Hi)].
  pose proof (invariant_same_content _ _ Hc Hi) as Hi'.
  destruct (table_exists (search s)); [|exact Hi'].
  destruct (saveAfterAssociationsCallback _ _); [exact Hi'|].
  cbn [sqldb finish]. destruct Hi' as [Hpk Hca].
  unfold invariant, primary_key, counter_ahead in *. cbn [talk talk_seq with_talk].
  set (v := assign values (struct_of (Value s))) in *.
  assert (Hids : forall r,
             id (if matches (links d') (whereSQL (search s) (ID v) []) r
                 then set_columns values r else r) = id r).
  { intros r. destruct (matches _ _ r) eqn:Em; [|reflexivity].
    apply (matched_id (links d') (search s) values v); [|exact Em].
    unfold v, assign. cbn [ID]. destruct (blank_uint (ID values)); reflexivity. }
  split.
  - rewrite map_map. rewrite (map_ext _ id Hids). exact Hpk.
  - rewrite Forall_map. rewrite Forall_forall in *. intros r Hr.
    rewrite Hids. exact (Hca r Hr).
Qed.

Lemma NoDup_map_filter (p : talk_row -> bool) (rows : list talk_row) :
  NoDup (map id rows) -> NoDup (map id (filter p rows)).
Proof.
  induction rows as [|x rows IH]; simpl; intros H; [constructor|].
  inversion H as [|? ? Hx Hnd]; subst.
  destruct (p x); simpl; [|auto]. constructor; [|auto].
  intros Hin. apply Hx. apply in_map_iff in Hin. destruct Hin as [r [Hr Hin]].
  apply filter_In in Hin. destruct Hin as [Hin _].
  apply in_map_iff. exists r. split; assumption.
Qed.

Lemma Delete_invariant (v : Talk) (s : DB) :
  invariant (sqldb s) -> invariant (sqldb (Delete v s)).
Proof.
  intros Hi. unfold Delete. destruct (Error s); [exact Hi|].
  pose proof (roundtrip_content (sqldb s)) as Hc.
  destruct (roundtrip (sqldb s)) as [[|msg n] d']; simpl in Hc;
    [|exact (invariant_same_content _ _ Hc Hi)].
  pose proof (invariant_same_content _ _ Hc Hi) as Hi'.
  destruct (table_exists (search s)); [|exact Hi'].
  cbn [sqldb finish]. destruct Hi' as [Hpk Hca].
  unfold invariant, primary_key, counter_ahead in *. cbn [talk talk_seq with_talk].
  split; [apply NoDup_map_filter; exact Hpk|].
  rewrite Forall_forall in *. intros r Hr. apply filter_In in Hr. apply Hca, Hr.
Qed.

Lemma query_struct_invariant (ordered : bool) (out : Talk) (inline : list cond) (s : DB) :
  invariant (sqldb s) -> invariant (sqldb (query_struct ordered out inline s)).
Proof. apply invariant_same_content, query_struct_content. Qed.

Lemma GetTalkByID_invariant (d : Database) (i : uint) :
  invariant d -> invariant (fst (fst (GetTalkByID d i))).
Proof. apply invariant_same_content, GetTalkByID_content. Qed.

(** Every method that writes keeps the invariants. *)
Lemma store_keeps_invariants (d : TalkDBStore) (i : uint) (talk : ptr Talk) :
  invariant d ->
  invariant (fst (fst (AddTalk d talk)))
  /\ invariant (fst (fst (UpdateTalk d i talk)))
  /\ invariant (fst (DeleteTalkByID d i)).
Proof.
  intros Hi. split; [|split].
  - unfold AddTalk. destruct (validate_Struct talk); [exact Hi|].
    destruct talk as [t|]; [|exact Hi]. cbv zeta.
    pose proof (Create_invariant t (gormDB d) Hi) as Hc.
    destruct (Error (Create t (gormDB d))); [exact Hc|].
    apply GetTalkByID_invariant. exact Hc.
  - unfold UpdateTalk. destruct (validate_Struct talk); [exact Hi|].
    destruct talk as [t|]; [|exact Hi]. cbv zeta. fold (by_id i d).
    assert (Hc : invariant (sqldb (First t i (Update t (Take Talk0 (by_id i d)))))).
    { apply query_struct_invariant, Update_invariant, query_struct_invariant. exact Hi. }
    destruct (Error (First t i (Update t (Take Talk0 (by_id i d))))) as [e|];
      [destruct (IsRecordNotFoundError e); exact Hc|].
    apply GetTalkByID_invariant. exact Hc.
  - unfold DeleteTalkByID. cbv zeta. fold (by_id i d).
    assert (Hc : invariant (sqldb (Delete Talk0 (Take Talk0 (by_id i d))))).
    { apply Delete_invariant, query_struct_invariant. exact Hi. }
    destruct (Error (Delete Talk0 (Take Talk0 (by_id i d)))) as [e|];
      [destruct (IsRecordNotFoundError e)|]; exact Hc.
Qed.

(** C1 (what the code does). No field of [Talk] declares a constraint, so
    [validate.Struct] accepts every non-nil talk. A talk with empty [Title]
    and [Language], zero [DurationInMinutes] and a [Level] outside
    beginner, advanced, expert is inserted by [AddTalk] into an empty
    database, and [UpdateTalk] writes that level over a stored row; neither
    returns an error. *)
Theorem validation_accepts_every_talk (c : Catalog) :
  (forall t : Talk, validate_Struct (Some t) = None)
  /\ (exists e,
        AddTalk (empty_db c) (Some (only_level "guru"))
        = (with_talk (empty_db c)
             [ {| id := 1; title := EmptyString; duration_in_minutes := 0;
                  language := EmptyString; level := "guru" |} ] 1 (no_links c),
           Some e, None)
        /\ Title e = EmptyString /\ DurationInMinutes e = 0
        /\ Language e = EmptyString /\ Level e = "guru")
  /\ (exists e,
        UpdateTalk (one_talk c) 1 (Some (only_level "guru"))
        = (with_talk (one_talk c)
             [ {| id := 1; title := "Intro"; duration_in_minutes := 30;
                  language := "en"; level := "guru" |} ] 1 (no_links c),
           Some e, None)
        /\ Level e = "guru").
Proof.
  split; [intros t; reflexivity|]. split.
  - eexists. split; [reflexivity|]. repeat split.
  - eexists. split; [reflexivity|]. reflexivity.
Qed.

(** ** Reads *)

Lemma roundtrip_driver (d : Database) : driver (snd (roundtrip d)) = tl (driver d).
Proof. unfold roundtrip. destruct (driver d) eqn:E; simpl; [exact E|reflexivity]. Qed.

Lemma roundtrip_one_read (d : Database) : one_read d (snd (roundtrip d)).
Proof. split; [apply roundtrip_content|apply roundtrip_driver]. Qed.

Lemma query_struct_one_read (ordered : bool) (out : Talk) (inline : list cond) (s : DB) :
  Error s = None -> one_read (sqldb s) (sqldb (query_struct ordered out inline s)).
Proof.
  intros He. unfold query_struct. rewrite He.
  pose proof (roundtrip_one_read (sqldb s)) as Hc.
  destruct (roundtrip (sqldb s)) as [[|msg n] d']; simpl in Hc.
  - destruct (table_exists (search s)); [|exact Hc].
    destruct (limit1 _ _); [|exact Hc].
    destruct (preloadCallback _ _). exact Hc.
  - exact Hc.
Qed.

Lemma Find_one_read (s : DB) :
  Error s = None -> one_read (sqldb s) (sqldb (Find s)).
Proof.
  intros He. unfold Find. rewrite He.
  pose proof (roundtrip_one_read (sqldb s)) as Hc.
  destruct (roundtrip (sqldb s)) as [[|msg n] d']; simpl in Hc.
  - destruct (table_exists (search s)); [|exact Hc].
    destruct (preloadCallback _ _). exact Hc.
  - exact Hc.
Qed.

Lemma Find_error (s : DB) :
  Error s = None -> table_exists (search s) = true ->
  (forall l, snd (preloadCallback l (preload (search s))) = None) ->
  Error (Find s) = next_error (sqldb s).
Proof.
  intros He Ht Hp. unfold Find, next_error. rewrite He.
  destruct (roundtrip (sqldb s)) as [[|msg n] d']; simpl; [|reflexivity].
  rewrite Ht. specialize (Hp (links d')).
  destruct (preloadCallback _ _) as [load perr]. simpl in Hp. subst perr. reflexivity.
Qed.

(** The four reading methods never write: whatever the driver answers, the
    tables after the call are the tables before it, and exactly one request
    has gone to the driver. *)
Theorem reads_never_write (d : TalkDBStore) (i eventID personID : uint) :
  one_read d (fst (fst (GetTalks d)))
  /\ one_read d (fst (fst (GetTalkByID d i)))
  /\ one_read d (fst (fst (GetTalksByEventID d eventID)))
  /\ one_read d (fst (fst (GetTalksByPersonID d personID))).
Proof.
  split; [|split; [|split]].
  - unfold GetTalks. cbv zeta.
    match goal with |- context [Find ?s] =>
      pose proof (Find_one_read s eq_refl) as H; destruct (Error (Find s)) end; exact H.
  - unfold GetTalkByID, First. cbv zeta.
    match goal with |- context [query_struct ?o ?out ?inl ?s] =>
      pose proof (query_struct_one_read o out inl s eq_refl) as H;
      destruct (Error (query_struct o out inl s)) as [e|] end;
      [destruct (IsRecordNotFoundError e)|]; exact H.
  - unfold GetTalksByEventID. cbv zeta.
    match goal with |- context [Find ?s] =>
      pose proof (Find_one_read s eq_refl) as H; destruct (Error (Find s)) end; exact H.
  - unfold GetTalksByPersonID. cbv zeta.
    match goal with |- context [Find ?s] =>
      pose proof (Find_one_read s eq_refl) as H; destruct (Error (Find s)) end; exact H.
Qed.

(** The three list operations fail exactly when the driver fails their
    request, and then with the error of the driver: they answer neither
    [NotFound] nor [ValidationFailed], also for an id that nothing refers
    to. *)
Theorem list_operations_fail_only_with_the_driver
  (d : TalkDBStore) (eventID personID : uint) :
  snd (GetTalks d) = next_error d
  /\ snd (GetTalksByEventID d eventID) = next_error d
  /\ snd (GetTalksByPersonID d personID) = next_error d
  /\ (forall err, next_error d = Some err -> kind_of err = Unexpected).
Proof.
  split; [|split; [|split]].
  - unfold GetTalks. cbv zeta.
    match goal with |- context [Find ?s] =>
      pose proof (Find_error s eq_refl eq_refl (fun l => eq_refl)) as H;
      destruct (Error (Find s)) end; exact H.
  - unfold GetTalksByEventID. cbv zeta.
    match goal with |- context [Find ?s] =>
      pose proof (Find_error s eq_refl eq_refl (fun l => eq_refl)) as H;
      destruct (Error (Find s)) end; exact H.
  - unfold GetTalksByPersonID. cbv zeta.
    match goal with |- context [Find ?s] =>
      pose proof (Find_error s eq_refl eq_refl (fun l => eq_refl)) as H;
      destruct (Error (Find s)) end; exact H.
  - unfold next_error. intros err. destruct (fst (roundtrip d)); [discriminate|].
    intros E. injection E as <-. reflexivity.
Qed.

(** [GetTalkByID] finds what is stored: on a database that serves the
    requests and keeps [id] a primary key, the id of a row of [talk] is
    answered with an entity that carries the id and the four columns of that
    row and the three relations of the talk, preloaded; no error, and the
    database is as before. *)
Theorem GetTalkByID_returns_stored_row (d : TalkDBStore) (r : talk_row) :
  healthy d -> primary_key d -> In r (talk d) ->
  exists e,
    GetTalkByID d (id r) = (d, Some e, None)
    /\ ID e = id r /\ Title e = title r
    /\ DurationInMinutes e = duration_in_minutes r
    /\ Language e = language r /\ Level e = level r
    /\ Persons e = Some (map (preload_Organization (catalog (links d)))
                             (persons_of (links d) (id r)))
    /\ Topics e = Some (map (preload_Children (catalog (links d)))
                            (topics_of (links d) (id r)))
    /\ TalkDates e = Some (map (preload_Event (catalog (links d)))
                               (map (preload_Room (catalog (links d)))
                                    (talk_dates_of (links d) (id r)))).
Proof.
  intros H Hpk Hin. eexists. split.
  - rewrite (GetTalkByID_healthy d (id r) H).
    rewrite (find_present (id r) (talk d) r Hpk Hin eq_refl). reflexivity.
  - repeat split.
Qed.

(** [GetTalks] lists the table: on a database that serves the requests it
    returns one talk per row of [talk], in the order of the table, each with
    the id and the columns of its row; an empty table gives the empty,
    non-nil sequence. *)
Theorem GetTalks_lists_every_row (d : TalkDBStore) :
  healthy d ->
  exists ts,
    GetTalks d = (d, Some ts, None)
    /\ map row_of ts = talk d
    /\ List.length ts = List.length (talk d)
    /\ (talk d = [] -> ts = []).
Proof.
  intros H. eexists. split; [apply (GetTalks_healthy d H)|].
  split; [|split].
  - rewrite map_map. rewrite <- (map_id (talk d)) at 2. apply map_ext.
    intros [i t m l v]. reflexivity.
  - apply length_map.
  - intros ->. reflexivity.
Qed.

Lemma GetTalkByID_cases (d : Database) (i : uint) :
  GetTalkByID d i =
    match fst (roundtrip d) with
    | failed msg _ => (snd (roundtrip d), None, Some (DriverError msg))
    | served =>
        match find (has_id i) (talk d) with
        | Some r => (snd (roundtrip d), Some (preloaded (links d) (scan r Talk0)), None)
        | None => (snd (roundtrip d), None, Some (TalkNotFoundError ErrRecordNotFound))
        end
    end.
Proof.
  unfold GetTalkByID, First, query_struct. cbn [Error sqldb gormDB Preload].
  pose proof (roundtrip_content d) as Hc.
  destruct (roundtrip d) as [[|msg n] d']; cbn [fst snd] in *; [|reflexivity].
  destruct Hc as [Ht [_ Hl]].
  replace (table_exists _) with true by reflexivity.
  unfold selected. rewrite Ht, Hl.
  rewrite (filter_ext _ _ (matches_1 (links d) i)), limit1_has_id.
  destruct (find (has_id i) (talk d)); reflexivity.
Qed.

Lemma DeleteTalkByID_cases (d : Database) (i : uint) :
  DeleteTalkByID d i =
    match fst (roundtrip d) with
    | failed msg _ => (snd (roundtrip d), Some (DriverError msg))
    | served =>
        match find (has_id i) (talk d) with
        | None => (snd (roundtrip d), Some (TalkNotFoundError ErrRecordNotFound))
        | Some _ =>
            match fst (roundtrip (snd (roundtrip d))) with
            | failed msg _ => (snd (roundtrip (snd (roundtrip d))), Some (DriverError msg))
            | served =>
                (with_talk (snd (roundtrip (snd (roundtrip d))))
                   (filter (fun r => negb (has_id i r)) (talk d)) (talk_seq d) (links d),
                 None)
            end
        end
    end.
Proof.
  unfold DeleteTalkByID, Take, query_struct. cbn [Error sqldb gormDB Model Where].
  pose proof (roundtrip_content d) as Hc.
  destruct (roundtrip d) as [[|msg n] d1]; cbn [fst snd] in *; [|reflexivity].
  destruct Hc as [Ht [Hs Hl]].
  replace (table_exists _) with true by reflexivity.
  unfold selected. rewrite Ht, Hl.
  rewrite (filter_ext _ _ (matches_1 (links d) i)), limit1_has_id.
  destruct (find (has_id i) (talk d)); [|reflexivity].
  match goal with |- context [preloadCallback ?l ?p] =>
    change (preloadCallback l p) with ((fun t : Talk => t), @None error) end.
  unfold Delete. cbn [Error finish sqldb search Model Where gormDB preload].
  pose proof (roundtrip_content d1) as Hc.
  destruct (roundtrip d1) as [[|msg n] d2]; cbn [fst snd] in *; [|reflexivity].
  destruct Hc as [Ht2 [Hs2 Hl2]].
  cbn. rewrite Ht2, Hs2, Hl2, Ht, Hs, Hl. f_equal. f_equal.
  apply filter_ext. intros x.
  change (negb (matches (links d) [id_eq i] x) = negb (has_id i x)).
  rewrite matches_1. reflexivity.
Qed.


Section ErrorMessages.
Variable library_message : error -> string.


End ErrorMessages.

(** [DeleteTalkByID] removes the rows of its id and nothing else, whatever
    the driver does. When it returns no error, the id had a row and the table
    is the old one without the rows of that id; when it returns an error, the
    table is as before. The junction tables, the rows of [talk_date] and the
    counter are never written. *)
Theorem DeleteTalkByID_removes_only_its_rows (d : TalkDBStore) (i : uint) :
  let d' := fst (DeleteTalkByID d i) in
  links d' = links d
  /\ talk_seq d' = talk_seq d
  /\ match snd (DeleteTalkByID d i) with
     | None => talk d' = filter (fun r => negb (id r =? i)) (talk d)
               /\ exists r, In r (talk d) /\ id r = i
     | Some _ => talk d' = talk d
     end.
Proof.
  intros d'. unfold d'. rewrite DeleteTalkByID_cases.
  pose proof (roundtrip_content d) as [Ht [Hs Hl]].
  pose proof (roundtrip_content (snd (roundtrip d))) as [Ht2 [Hs2 Hl2]].
  destruct (fst (roundtrip d)); cbn [fst snd]; [|auto].
  destruct (find (has_id i) (talk d)) as [r|] eqn:E; cbn [fst snd]; [|auto].
  destruct (fst (roundtrip (snd (roundtrip d)))); cbn [fst snd].
  - repeat split. apply find_some in E. destruct E as [Hin Hid].
    exists r. split; [exact Hin|]. apply N.eqb_eq. exact Hid.
  - repeat split; congruence.
Qed.

(** ** Writes *)

Lemma roundtrip_cons (d : Database) (o : outcome) (rest : list outcome) :
  driver d = o :: rest -> roundtrip d = (o, with_driver d rest).
Proof. unfold roundtrip. intros ->. reflexivity. Qed.

Lemma new_id_absent (d : Database) (t : Talk) :
  counter_ahead d -> ID t = 0 \/ absent d (ID t) -> absent d (new_id d t).
Proof.
  intros Hc Ht. unfold new_id. destruct (ID t =? 0) eqn:E.
  - apply counter_ahead_absent. exact Hc.
  - destruct Ht as [Ht|Ht]; [|exact Ht]. apply N.eqb_neq in E. contradiction.
Qed.

Lemma Create_served (d d1 : Database) (t : Talk) (l' : Links) :
  roundtrip d = (served, d1) -> absent d (new_id d t) ->
  saveAfterAssociationsCallback (links d) (set_ID t (new_id d t)) = inr l' ->
  Create t (gormDB d)
  = finish (gormDB d)
      (with_talk d1 (talk d ++ [row_of (set_ID t (new_id d t))])
                 (N.max (talk_seq d) (new_id d t)) l')
      (VStruct (set_ID t (new_id d t))) None.
Proof.
  intros Hr Habs Hsave. unfold Create. cbn [Error gormDB sqldb]. rewrite Hr.
  pose proof (roundtrip_content d) as Hc. rewrite Hr in Hc. destruct Hc as [Ht [Hs Hl]].
  cbn [snd] in *.
  replace (table_exists (search (gormDB d))) with true by reflexivity.
  rewrite Ht, Hs, Hl. cbv zeta.
  change (if ID t =? 0 then talk_seq d + 1 else ID t) with (new_id d t).
  rewrite (existsb_absent d (new_id d t) Habs), Hsave. reflexivity.
Qed.



(** An error from [AddTalk] does not mean that nothing was written. When the
    driver serves the INSERT and fails the SELECT that reads the talk back,
    [AddTalk] returns the error of the driver and no entity, and the row is
    in the table. *)
Theorem AddTalk_error_after_insert
  (d : TalkDBStore) (t : Talk) (l' : Links) (msg : string) (n : nat)
  (rest : list outcome) :
  driver d = served :: failed msg n :: rest ->
  counter_ahead d -> ID t = 0 \/ absent d (ID t) ->
  saveAfterAssociationsCallback (links d) (set_ID t (new_id d t)) = inr l' ->
  AddTalk d (Some t)
  = (with_driver (inserted d t l') rest, None, Some (DriverError msg))
  /\ In (row_of (set_ID t (new_id d t))) (talk (fst (fst (AddTalk d (Some t))))).
Proof.
  intros Hd Hc Ht Hsave.
  assert (Habs : absent d (new_id d t)) by (apply new_id_absent; assumption).
  assert (E : AddTalk d (Some t)
              = (with_driver (inserted d t l') rest, None, Some (DriverError msg))).
  { unfold AddTalk. rewrite validate_Struct_Some.
    rewrite (Create_served d _ t l' (roundtrip_cons d _ _ Hd) Habs Hsave).
    cbn [Error finish sqldb Value struct_of ID set_ID].
    rewrite GetTalkByID_cases.
    match goal with |- context [roundtrip ?x] =>
      rewrite (roundtrip_cons x (failed msg n) rest eq_refl) end.
    reflexivity. }
  split; [exact E|]. rewrite E. cbn [fst talk with_driver inserted with_talk].
  apply in_or_app. right. left. reflexivity.
Qed.

Lemma Create_effect (v : Talk) (s : DB) :
  match Error (Create v s) with
  | Some _ => same_content (sqldb s) (sqldb (Create v s))
  | None =>
      Error s = None ->
      exists r, talk (sqldb (Create v s)) = (talk (sqldb s) ++ [r])%list
                /\ ~ In (id r) (map id (talk (sqldb s)))
                /\ talk_seq (sqldb s) <= talk_seq (sqldb (Create v s))
  end.
Proof.
  unfold Create. destruct (Error s) as [e|] eqn:He.
  - cbn [Error finish sqldb]. apply same_content_refl.
  - pose proof (roundtrip_content (sqldb s)) as Hc.
    destruct (roundtrip (sqldb s)) as [[|msg n] d']; cbn [snd] in Hc; [|exact Hc].
    destruct (table_exists (search s)); [|exact Hc].
    destruct (existsb _ (talk d')) eqn:Ee; [exact Hc|].
    destruct (saveAfterAssociationsCallback _ _); [exact Hc|].
    cbn [Error sqldb finish talk talk_seq with_talk]. intros _.
    destruct Hc as [Ht [Hs _]]. rewrite Ht, Hs in *.
    eexists. split; [reflexivity|]. split; [|lia].
    cbn [id row_of ID set_ID]. intros Hin. apply in_map_iff in Hin.
    destruct Hin as [r [Hr Hin]].
    assert (Hx : existsb (fun r0 => id r0 =? (if ID v =? 0 then talk_seq (sqldb s) + 1 else ID v))
                         (talk (sqldb s)) = true).
    { apply existsb_exists. exists r. split; [exact Hin|]. apply N.eqb_eq. exact Hr. }
    congruence.
Qed.

(** [AddTalk] adds one row at most and never alters a stored one, whatever
    the driver does and whatever the talk is: after the call the tables are
    as before, or [talk] is the old table followed by one row whose id no row
    had, and the counter has not gone back. *)
Theorem AddTalk_adds_at_most_one_row (d : TalkDBStore) (talk : ptr Talk) :
  let d' := fst (fst (AddTalk d talk)) in
  same_content d d'
  \/ exists r, Data.talk d' = (Data.talk d ++ [r])%list
               /\ ~ In (id r) (map id (Data.talk d))
               /\ talk_seq d <= talk_seq d'.
Proof.
  intros d'. unfold d', AddTalk.
  destruct (validate_Struct talk); [left; apply same_content_refl|].
  destruct talk as [t|]; [|left; apply same_content_refl]. cbv zeta.
  pose proof (Create_effect t (gormDB d)) as Hc.
  destruct (Error (Create t (gormDB d))); [left; exact Hc|].
  destruct (Hc eq_refl) as [r [Ht [Hr Hs]]].
  pose proof (GetTalkByID_content (sqldb (Create t (gormDB d)))
                (ID (struct_of (Value (Create t (gormDB d)))))) as [Ht' [Hs' _]].
  right. exists r. rewrite Ht', Hs'. auto.
Qed.

Lemma kept_except_refl (i : uint) (rows : list talk_row) : kept_except i rows rows.
Proof. induction rows; constructor; auto. Qed.

Lemma kept_except_trans (i : uint) (xs ys zs : list talk_row) :
  kept_except i xs ys -> kept_except i ys zs -> kept_except i xs zs.
Proof.
  intros H. revert zs. induction H as [|x y xs ys [Hid Heq] _ IH]; intros zs Hz.
  - inversion Hz. constructor.
  - inversion Hz as [|? z ? zs' [Hid' Heq'] Hz']; subst. constructor; [|apply IH; exact Hz'].
    split; [congruence|]. intros Hne. rewrite Heq' by congruence. apply Heq. exact Hne.
Qed.

Lemma kept_except_map (i : uint) (g : talk_row -> talk_row) (rows : list talk_row) :
  (forall r, id (g r) = id r /\ (id r <> i -> g r = r)) ->
  kept_except i rows (map g rows).
Proof. intros Hg. induction rows; simpl; constructor; auto. Qed.

Lemma search_query_struct (ordered : bool) (out : Talk) (inline : list cond) (s : DB) :
  search (query_struct ordered out inline s) = search s.
Proof.
  unfold query_struct. destruct (Error s); [reflexivity|].
  destruct (roundtrip (sqldb s)) as [[|msg n] d']; [|reflexivity].
  destruct (table_exists (search s)); [|reflexivity].
  destruct (limit1 _ _); [|reflexivity]. destruct (preloadCallback _ _). reflexivity.
Qed.

Lemma matches_where (l : Links) (s : Search) (pk i : uint) (r : talk_row) :
  In (id_eq i) (whereConditions s) -> matches l (whereSQL s pk []) r = true -> id r = i.
Proof.
  intros Hin Hm. unfold matches, whereSQL in Hm. rewrite forallb_forall in Hm.
  specialize (Hm (id_eq i)). apply N.eqb_eq. apply Hm.
  apply in_or_app. right. apply in_or_app. left. exact Hin.
Qed.

Lemma Update_kept (i : uint) (values : Talk) (s : DB) :
  In (id_eq i) (whereConditions (search s)) ->
  kept_except i (talk (sqldb s)) (talk (sqldb (Update values s)))
  /\ talk_seq (sqldb (Update values s)) = talk_seq (sqldb s).
Proof.
  intros Hin. unfold Update.
  destruct (Error s); [split; [apply kept_except_refl|reflexivity]|].
  destruct (hasUpdate values); [|split; [apply kept_except_refl|reflexivity]].
  pose proof (roundtrip_content (sqldb s)) as Hc.
  destruct (roundtrip (sqldb s)) as [[|msg n] d']; cbn [snd] in Hc;
    destruct Hc as [Ht [Hs Hl]];
    [|cbn [sqldb finish]; rewrite Ht, Hs; split; [apply kept_except_refl|reflexivity]].
  destruct (table_exists (search s));
    [|cbn [sqldb finish]; rewrite Ht, Hs; split; [apply kept_except_refl|reflexivity]].
  destruct (saveAfterAssociationsCallback _ _);
    [cbn [sqldb finish]; rewrite Ht, Hs; split; [apply kept_except_refl|reflexivity]|].
  cbn [sqldb finish talk talk_seq with_talk]. rewrite Ht, Hs. split; [|reflexivity].
  apply kept_except_map. intros r.
  destruct (matches _ _ r) eqn:Em; [|auto].
  split.
  - apply (matched_id (links d') (search s) values
             (assign values (struct_of (Value s)))); [|exact Em].
    unfold assign. cbn [ID]. destruct (blank_uint (ID values)); reflexivity.
  - intros Hne. elim Hne. exact (matches_where _ _ _ _ _ Hin Em).
Qed.

(** [UpdateTalk] writes the rows of its id only, whatever the driver does
    and whatever the talk is: row by row, the table after the call has the
    ids of the table before it and differs from it in rows of that id at
    most. No row is added or removed, no id changes, and the counter stays. *)
Theorem UpdateTalk_touches_only_its_rows (d : TalkDBStore) (i : uint) (talk : ptr Talk) :
  let d' := fst (fst (UpdateTalk d i talk)) in
  kept_except i (Data.talk d) (Data.talk d')
  /\ map id (Data.talk d') = map id (Data.talk d)
  /\ talk_seq d' = talk_seq d.
Proof.
  intros d'.
  assert (H : kept_except i (Data.talk d) (Data.talk d') /\ talk_seq d' = talk_seq d).
  { unfold d', UpdateTalk.
    destruct (validate_Struct talk); [split; [apply kept_except_refl|reflexivity]|].
    destruct talk as [t|]; [|split; [apply kept_except_refl|reflexivity]].
    cbv zeta. fold (by_id i d).
    assert (Htx : kept_except i (Data.talk d)
                    (Data.talk (sqldb (First t i (Update t (Take Talk0 (by_id i d))))))
                  /\ talk_seq (sqldb (First t i (Update t (Take Talk0 (by_id i d)))))
                     = talk_seq d).
    { pose proof (query_struct_content false Talk0 [] (by_id i d)) as [Ht1 [Hs1 _]].
      fold (Take Talk0 (by_id i d)) in Ht1, Hs1. cbn [sqldb by_id gormDB Model Where] in Ht1, Hs1.
      assert (Hin : In (id_eq i) (whereConditions (search (Take Talk0 (by_id i d))))).
      { unfold Take. rewrite search_query_struct. left. reflexivity. }
      destruct (Update_kept i t (Take Talk0 (by_id i d)) Hin) as [Hk2 Hs2].
      pose proof (query_struct_content true t [id_eq i] (Update t (Take Talk0 (by_id i d))))
        as [Ht3 [Hs3 _]].
      fold (First t i (Update t (Take Talk0 (by_id i d)))) in Ht3, Hs3.
      rewrite Ht3, Hs3, Hs2, Hs1. rewrite Ht1 in Hk2. split; [exact Hk2|reflexivity]. }
    destruct (Error (First t i (Update t (Take Talk0 (by_id i d))))) as [e|];
      [destruct (IsRecordNotFoundError e); exact Htx|].
    match goal with |- context [GetTalkByID ?x ?j] =>
      pose proof (GetTalkByID_content x j) as [Ht4 [Hs4 _]] end.
    rewrite Ht4, Hs4. exact Htx. }
  destruct H as [Hk Hs]. split; [exact Hk|split; [|exact Hs]].
  clear Hs. induction Hk as [|x y xs ys [Hid _] _ IH]; simpl; [reflexivity|].
  rewrite Hid, IH. reflexivity.
Qed.

Lemma UpdateTalk_healthy
  (d : Database) (i : uint) (t : Talk) (r : talk_row) (l' : Links) :
  healthy d -> primary_key d -> In r (talk d) -> id r = i ->
  ID t = 0 \/ ID t = i ->
  (hasUpdate t = true ->
   saveAfterAssociationsCallback (links d) (assign t (scan r Talk0)) = inr l') ->
  UpdateTalk d i (Some t)
  = ((if hasUpdate t then merged d i t l' else d),
     Some (preloaded (links (if hasUpdate t then merged d i t l' else d))
                     (scan (set_columns t r) Talk0)),
     None).
Proof.
  intros H Hpk Hin Hid Ht Hsave.
  set (d' := if hasUpdate t then merged d i t l' else d).
  set (r' := set_columns t r).
  assert (Hfind : find (has_id i) (talk d) = Some r) by (apply find_present; assumption).
  assert (Hr' : id r' = i) by (apply id_set_columns; assumption).
  assert (Hd' : healthy d' /\ find (has_id i) (talk d') = Some r').
  { unfold d'. destruct (hasUpdate t) eqn:Eu.
    - split; [exact H|]. cbn [talk with_talk merged].
      apply (find_map_pinned i (set_columns t)); assumption.
    - split; [exact H|]. unfold r'. rewrite (set_columns_blank t r Eu). exact Hfind. }
  destruct Hd' as [Hh' Hfind'].
  assert (Hget : GetTalkByID d' i = (d', Some (preloaded (links d') (scan r' Talk0)), None)).
  { rewrite (GetTalkByID_healthy d' i Hh'), Hfind'. reflexivity. }
  rewrite <- Hget.
  unfold UpdateTalk. rewrite validate_Struct_Some. fold (by_id i d).
  rewrite (Take_healthy d i H), Hfind.
  assert (Hupd : Update t (finish (by_id i d) d (VStruct (scan r Talk0)) None)
                 = finish (by_id i d) d' (VStruct (assign t (scan r Talk0))) None).
  { unfold Update. cbn [Error finish Value struct_of sqldb]. unfold d'.
    destruct (hasUpdate t); [|reflexivity].
    rewrite (roundtrip_healthy d H). cbn [search finish].
    replace (table_exists (search (by_id i d))) with true by reflexivity.
    rewrite (Hsave eq_refl). unfold finish. cbn [search]. f_equal.
    unfold merged, with_talk. f_equal. apply map_ext. intros x.
    rewrite (ID_assign t r i Ht Hid).
    change (whereSQL (search (by_id i d)) i [])
      with ((if i =? 0 then [] else [id_eq i]) ++ id_eq i :: [])%list.
    rewrite matches_pk by (right; reflexivity). rewrite matches_1. reflexivity. }
  rewrite Hupd. unfold First.
  rewrite (query_struct_pinned _ _ _ _ i); try reflexivity; try exact Hh'.
  - cbn [sqldb finish]. rewrite Hfind'.
    change (GetTalkByID d' (id r') = GetTalkByID d' i). rewrite Hr'. reflexivity.
  - intros x. cbn [sqldb finish search].
    change (whereSQL (search (by_id i d)) (ID t) [id_eq i])
      with ((if ID t =? 0 then [] else [id_eq (ID t)]) ++ id_eq i :: [id_eq i])%list.
    rewrite matches_pk by exact Ht. apply matches_2.
Qed.








(** A deleted talk leaves every list: on a database that serves the
    requests, after [DeleteTalkByID] none of the three list operations
    returns a talk of that id, although the rows of the junction tables that
    mention the id are still there; [GetTalks] returns the rows of the other
    ids as before. *)
Theorem deleted_talk_leaves_the_lists (d : TalkDBStore) (i eventID personID : uint) :
  healthy d ->
  let d' := fst (DeleteTalkByID d i) in
  links d' = links d
  /\ (exists ts, GetTalks d' = (d', Some ts, None)
                 /\ map row_of ts = filter (fun r => negb (id r =? i)) (talk d))
  /\ (forall ts, snd (fst (GetTalks d')) = Some ts
                 \/ snd (fst (GetTalksByEventID d' eventID)) = Some ts
                 \/ snd (fst (GetTalksByPersonID d' personID)) = Some ts ->
                 ~ In i (map ID ts)).
Proof.
  intros H d'.
  assert (Hd' : healthy d' /\ links d' = links d
                /\ talk d' = filter (fun r => negb (has_id i r)) (talk d)).
  { unfold d'. rewrite (DeleteTalkByID_healthy d i H).
    destruct (find (has_id i) (talk d)) eqn:E; cbn [fst].
    - repeat split. exact H.
    - repeat split; [exact H|]. symmetry. apply filter_not_found. exact E. }
  destruct Hd' as [Hh [Hl Ht]].
  assert (Hno : forall (f : talk_row -> Talk) (p : talk_row -> bool),
             (forall r, ID (f r) = id r) ->
             ~ In i (map ID (map f (filter p (talk d'))))).
  { intros f p Hf Hin. rewrite map_map in Hin. apply in_map_iff in Hin.
    destruct Hin as [r [Hr Hin]]. rewrite Hf in Hr.
    apply filter_In in Hin. destruct Hin as [Hin _]. rewrite Ht in Hin.
    apply filter_In in Hin. destruct Hin as [_ Hin]. unfold has_id in Hin.
    rewrite Hr, N.eqb_refl in Hin. discriminate. }
  split; [exact Hl|]. split.
  - eexists. split; [apply (GetTalks_healthy d' Hh)|].
    rewrite map_map, Ht. unfold has_id. etransitivity; [|apply map_id].
    apply map_ext. intros [j a b c e]. reflexivity.
  - intros ts [E|[E|E]].
    + rewrite (GetTalks_healthy d' Hh) in E. cbn [fst snd] in E. injection E as <-.
      rewrite <- (filter_all (talk d')). apply Hno. reflexivity.
    + rewrite (GetTalksByEventID_healthy d' eventID Hh) in E. cbn [fst snd] in E.
      injection E as <-. apply Hno. reflexivity.
    + rewrite (GetTalksByPersonID_healthy d' personID Hh) in E. cbn [fst snd] in E.
      injection E as <-. apply Hno. reflexivity.
Qed.

(** A talk without a column to set changes nothing: on a database that
    serves the requests, when [ID], [Title], [DurationInMinutes], [Language]
    and [Level] of the talk are all zero, [UpdateTalk] on a stored id leaves
    the database as it is and returns the stored entity. The relations the
    talk carries are not saved. *)
Theorem UpdateTalk_without_columns_writes_nothing
  (d : TalkDBStore) (i : uint) (t : Talk) (r : talk_row) :
  healthy d -> primary_key d -> In r (talk d) -> id r = i ->
  hasUpdate t = false ->
  UpdateTalk d i (Some t) = (d, Some (preloaded (links d) (scan r Talk0)), None)
  /\ UpdateTalk d i (Some t) = GetTalkByID d i.
Proof.
  intros H Hpk Hin Hid Hu.
  assert (Ht : ID t = 0).
  { unfold hasUpdate in Hu. apply negb_false_iff in Hu.
    repeat (apply andb_true_iff in Hu; destruct Hu as [Hu _]).
    apply N.eqb_eq. exact Hu. }
  assert (E : UpdateTalk d i (Some t)
              = (d, Some (preloaded (links d) (scan r Talk0)), None)).
  { rewrite (UpdateTalk_healthy d i t r (links d) H Hpk Hin Hid (or_introl Ht)).
    - rewrite Hu, (set_columns_blank t r Hu). reflexivity.
    - rewrite Hu. discriminate. }
  split; [exact E|]. rewrite E, (GetTalkByID_healthy d i H).
  rewrite (find_present i (talk d) r Hpk Hin Hid). reflexivity.
Qed.

Lemma NoDup_map_ID (f : talk_row -> Talk) (p : talk_row -> bool) (rows : list talk_row) :
  (forall r, ID (f r) = id r) -> NoDup (map id rows) ->
  NoDup (map ID (map f (filter p rows))).
Proof.
  intros Hf Hnd. rewrite map_map. rewrite (map_ext _ id Hf).
  apply NoDup_map_filter. exact Hnd.
Qed.

(** The lists by event and by person hold a talk once: on a database that
    serves the requests and keeps [id] a primary key, no id occurs twice in
    what [GetTalksByEventID] or [GetTalksByPersonID] returns, however many
    rows of [talk_date] or [talks_at] link the talk to the event or the
    person; and every talk they return is a row of [talk]. *)
Theorem related_lists_have_no_duplicates (d : TalkDBStore) (eventID personID : uint) :
  healthy d -> primary_key d ->
  (exists ts, GetTalksByEventID d eventID = (d, Some ts, None)
              /\ NoDup (map ID ts) /\ incl (map row_of ts) (talk d))
  /\ (exists ts, GetTalksByPersonID d personID = (d, Some ts, None)
                 /\ NoDup (map ID ts) /\ incl (map row_of ts) (talk d)).
Proof.
  intros H Hpk.
  assert (Hincl : forall (f : talk_row -> Talk) (p : talk_row -> bool),
             (forall r, row_of (f r) = r) ->
             incl (map row_of (map f (filter p (talk d)))) (talk d)).
  { intros f p Hf x Hx. rewrite map_map in Hx. apply in_map_iff in Hx.
    destruct Hx as [r [Hr Hin]]. rewrite Hf in Hr. subst x.
    apply filter_In in Hin. apply Hin. }
  split; eexists.
  - split; [apply (GetTalksByEventID_healthy d eventID H)|]. split.
    + apply NoDup_map_ID; [reflexivity|exact Hpk].
    + apply Hincl. intros [j a b c e]. reflexivity.
  - split; [apply (GetTalksByPersonID_healthy d personID H)|]. split.
    + apply NoDup_map_ID; [reflexivity|exact Hpk].
    + apply Hincl. intros [j a b c e]. reflexivity.
Qed.

End Properties.

(** * The properties on sample data *)

Import Example.

Lemma conference_healthy : healthy conference.
Proof. reflexivity. Defined.

Lemma conference_primary_key : primary_key conference.
Proof.
  unfold primary_key. simpl. constructor; [intros []|constructor].
Defined.

Lemma conference_counter_ahead : counter_ahead conference.
Proof.
  unfold counter_ahead. simpl. constructor; [discriminate|constructor].
Defined.

Lemma conference_lacks_2 : absent conference 2.
Proof.
  intros r [<-|[]]. discriminate.
Defined.

Lemma validation_precedes_storage_witness :
  AddTalk conference None = (conference, None, Some InvalidValidationError)
  /\ UpdateTalk conference 5 None = (conference, None, Some InvalidValidationError).
Proof.
  apply (validation_precedes_storage conference 5 None InvalidValidationError).
  reflexivity.
Defined.

Lemma absent_id_is_NotFound_witness :
  GetTalkByID conference 2 = (conference, None, Some (TalkNotFoundError ErrRecordNotFound))
  /\ UpdateTalk conference 2 (Some keynote)
     = (conference, None, Some (TalkNotFoundError ErrRecordNotFound))
  /\ DeleteTalkByID conference 2 = (conference, Some (TalkNotFoundError ErrRecordNotFound)).
Proof.
  destruct (absent_id_is_NotFound conference 2 conference_healthy conference_lacks_2)
    as [_ [Hget [Hupd Hdel]]].
  split; [exact Hget|]. split; [|exact Hdel].
  apply Hupd. reflexivity.
Defined.

Lemma delete_is_hard_and_repeatable_witness :
  talk (fst (DeleteTalkByID conference 1)) = []
  /\ DeleteTalkByID (fst (DeleteTalkByID conference 1)) 1
     = (fst (DeleteTalkByID conference 1), Some (TalkNotFoundError ErrRecordNotFound)).
Proof.
  destruct (delete_is_hard_and_repeatable conference 1 conference_healthy)
    as [Ht [_ [_ [Hdel _]]]].
  split; [exact Ht|exact Hdel].
Defined.

Lemma talks_by_related_id_witness :
  GetTalksByEventID conference 8 = (conference, Some [], None)
  /\ GetTalksByPersonID conference 8 = (conference, Some [], None).
Proof.
  destruct (talks_by_related_id conference 8 8 conference_healthy)
    as [_ [_ [He Hp]]].
  split.
  - apply He. intros td [<-|[]]. discriminate.
  - apply Hp. intros talkID [E|[]]. discriminate E.
Defined.


Lemma no_partial_result_with_error_witness :
  GetTalks broken = (conference, Some [], Some (DriverError "connection reset"))
  /\ GetTalkByID broken 1 = (conference, None, Some (DriverError "connection reset")).
Proof.
  destruct (no_partial_result_with_error broken 1 9 7 (Some keynote)) as [_ H].
  destruct (H "connection reset" 1%nat [] eq_refl) as [H1 [_ [_ [H4 _]]]].
  split; [exact H1|exact H4].
Defined.





Lemma conference_invariant : invariant conference.
Proof. split; [exact conference_primary_key|exact conference_counter_ahead]. Defined.

Lemma GetTalkByID_returns_stored_row_witness :
  exists e, GetTalkByID conference 1 = (conference, Some e, None)
            /\ Title e = "Intro" /\ Persons e = Some [(7, true)].
Proof.
  destruct (GetTalkByID_returns_stored_row conference intro_row conference_healthy
              conference_primary_key (or_introl eq_refl))
    as [e [Hget [_ [Ht [_ [_ [_ [Hp _]]]]]]]].
  exists e. split; [exact Hget|]. split; [exact Ht|exact Hp].
Defined.

Lemma GetTalks_lists_every_row_witness :
  exists ts, GetTalks conference = (conference, Some ts, None)
             /\ map row_of ts = [intro_row].
Proof.
  destruct (GetTalks_lists_every_row conference conference_healthy)
    as [ts [Hget [Hrows _]]].
  exists ts. split; [exact Hget|exact Hrows].
Defined.


Lemma AddTalk_error_after_insert_witness :
  snd (AddTalk flaky (Some keynote)) = Some (DriverError "connection reset")
  /\ In (row_of (set_ID keynote 2)) (talk (fst (fst (AddTalk flaky (Some keynote))))).
Proof.
  destruct (AddTalk_error_after_insert (A := PlainSave) flaky keynote keynote_links
              "connection reset" 0%nat [] eq_refl conference_counter_ahead
              (or_introl eq_refl) eq_refl) as [E Hin].
  split; [rewrite E; reflexivity|exact Hin].
Defined.




Lemma deleted_talk_leaves_the_lists_witness :
  links (fst (DeleteTalkByID conference 1)) = links conference
  /\ exists ts, GetTalks (fst (DeleteTalkByID conference 1))
                = (fst (DeleteTalkByID conference 1), Some ts, None)
                /\ map row_of ts = [].
Proof.
  destruct (deleted_talk_leaves_the_lists conference 1 9 7 conference_healthy)
    as [Hl [Hts _]].
  split; [exact Hl|exact Hts].
Defined.

Lemma UpdateTalk_with_other_ID_is_NotFound_witness :
  UpdateTalk conference 1 (Some misfiled)
  = (with_talk conference (talk conference) (talk_seq conference) (links conference),
     None, Some (TalkNotFoundError ErrRecordNotFound)).
Proof.
  apply (UpdateTalk_with_other_ID_is_NotFound (A := PlainSave) conference 1 misfiled
           intro_row (links conference) conference_healthy conference_primary_key
           (or_introl eq_refl) eq_refl); [discriminate|discriminate|reflexivity].
Defined.

Lemma store_keeps_invariants_witness :
  invariant (fst (fst (AddTalk conference (Some keynote))))
  /\ invariant (fst (fst (UpdateTalk conference 1 (Some (only_duration 45)))))
  /\ invariant (fst (DeleteTalkByID conference 1)).
Proof.
  destruct (store_keeps_invariants (A := PlainSave) conference 1 (Some keynote)
              conference_invariant) as [Ha [_ Hd]].
  destruct (store_keeps_invariants (A := PlainSave) conference 1 (Some (only_duration 45))
              conference_invariant) as [_ [Hu _]].
  split; [exact Ha|]. split; [exact Hu|exact Hd].
Defined.

Lemma UpdateTalk_without_columns_writes_nothing_witness :
  UpdateTalk conference 1 (Some (set_Persons Talk0 (Some [(8, false)])))
  = GetTalkByID conference 1.
Proof.
  exact (proj2 (UpdateTalk_without_columns_writes_nothing (A := PlainSave) conference 1
                  (set_Persons Talk0 (Some [(8, false)])) intro_row
                  conference_healthy conference_primary_key (or_introl eq_refl)
                  eq_refl eq_refl)).
Defined.

Lemma related_lists_have_no_duplicates_witness :
  exists ts, GetTalksByEventID conference 9 = (conference, Some ts, None)
             /\ NoDup (map ID ts) /\ incl (map row_of ts) (talk conference).
Proof.
  exact (proj1 (related_lists_have_no_duplicates conference 9 7 conference_healthy
                  conference_primary_key)).
Defined.

(** * Properties of the routing table *)

Section RoutingProperties.
Import Main.

Variables GetLocations GetLocation CreateLocation UpdateLocation DeleteLocation : Handler.
Variable metricsHandler : Handler.
Variable EnforceJsonContentType : Constructor.
Variable OIDCMiddleware : Constructor.
Variable verify : string -> bool.
Variable unauthorizedBody : string.

Abbreviation routes :=
  (sm GetLocations GetLocation CreateLocation UpdateLocation DeleteLocation
      metricsHandler EnforceJsonContentType OIDCMiddleware verify unauthorizedBody).

Lemma strip_prefix_app (prefix s rest : string) :
  strip_prefix prefix s = Some rest -> s = (prefix ++ rest)%string.
Proof.
  revert s. induction prefix as [|a prefix IH]; intros s; simpl.
  - intros E. congruence.
  - destruct s as [|b s]; [discriminate|].
    destruct (Ascii.eqb a b) eqn:E; [|discriminate].
    apply Ascii.eqb_eq in E. subst b. intros H. rewrite (IH s H). reflexivity.
Qed.

(** C5. In the table of [main], a GET on /locations passes [middleware.OIDC]
    before the handler: without a valid bearer token the answer is the 401
    of the middleware, whatever [GetLocations] would have answered, and with
    one the request reaches [GetLocations]. A GET or a DELETE on
    /locations/{id:[0-9]+} goes to [GetLocation] or [DeleteLocation]
    directly: the answer is the one of the handler, whatever the
    Authorization header holds. *)
Theorem locations_routes_authentication (req : Request) :
  (Method req = "GET" -> Path req = "/locations" ->
     (~ authenticated verify req -> ServeHTTP routes req = unauthorized unauthorizedBody)
     /\ (authenticated verify req -> ServeHTTP routes req = GetLocations req))
  /\ (match_template (WithID "/locations/") (Path req) = true ->
       (Method req = "GET" -> ServeHTTP routes req = GetLocation req)
       /\ (Method req = "DELETE" -> ServeHTTP routes req = DeleteLocation req)).
Proof.
  split.
  - intros Hm Hp.
    assert (E : ServeHTTP routes req = OIDC verify unauthorizedBody GetLocations req).
    { unfold ServeHTTP, sm. cbn [Match tpl methods handler]. rewrite Hp, Hm. reflexivity. }
    rewrite E. unfold OIDC, authenticated. split.
    + intros Hno. destruct (bearerToken req) as [token|]; [|reflexivity].
      destruct (verify token) eqn:Ev; [|reflexivity].
      elim Hno. exists token. split; [reflexivity|exact Ev].
    + intros [token [Ht Hv]]. rewrite Ht, Hv. reflexivity.
  - intros Hp. unfold match_template in Hp.
    destruct (strip_prefix "/locations/" (Path req)) as [rest|] eqn:Es; [|discriminate].
    apply strip_prefix_app in Es.
    assert (Hp' : match_template (WithID "/locations/") ("/locations/" ++ rest) = true).
    { exact Hp. }
    split; intros Hm; unfold ServeHTTP, sm; cbn [Match tpl methods handler];
      rewrite Es, Hm.
    + change (match_template (Literal "/") ("/locations/" ++ rest)) with false.
      change (match_template (Literal "/locations") ("/locations/" ++ rest)) with false.
      cbv iota. rewrite Hp'. reflexivity.
    + change (match_template (Literal "/") ("/locations/" ++ rest)) with false.
      change (match_template (Literal "/locations") ("/locations/" ++ rest)) with false.
      cbv iota. rewrite Hp'. reflexivity.
Qed.

Lemma not_method (req : Request) (m : string) :
  Method req <> m -> (Method req =? m)%string = false.
Proof. intros H. apply String.eqb_neq. exact H. Qed.

(** The two routes that write pass both middlewares, the check of the
    content type first: a POST on /locations is answered by
    [EnforceJsonContentType] around [OIDCMiddleware] around
    [CreateLocation], a PUT on /locations/{id:[0-9]+} by the same two around
    [UpdateLocation]. *)
Theorem writing_routes_pass_both_middlewares (req : Request) :
  (Method req = "POST" -> Path req = "/locations" ->
     ServeHTTP routes req = EnforceJsonContentType (OIDCMiddleware CreateLocation) req)
  /\ (Method req = "PUT" -> match_template (WithID "/locations/") (Path req) = true ->
      ServeHTTP routes req = EnforceJsonContentType (OIDCMiddleware UpdateLocation) req).
Proof.
  split.
  - intros Hm Hp. unfold ServeHTTP, sm. cbn [Match tpl methods handler].
    rewrite Hp, Hm. reflexivity.
  - intros Hm Hp. unfold match_template in Hp.
    destruct (strip_prefix "/locations/" (Path req)) as [rest|] eqn:Es; [|discriminate].
    apply strip_prefix_app in Es.
    assert (Hp' : match_template (WithID "/locations/") ("/locations/" ++ rest) = true)
      by exact Hp.
    unfold ServeHTTP, sm. cbn [Match tpl methods handler]. rewrite Es, Hm.
    change (match_template (Literal "/") ("/locations/" ++ rest)) with false.
    change (match_template (Literal "/locations") ("/locations/" ++ rest)) with false.
    cbv iota. rewrite Hp'. reflexivity.
Qed.


(** A method the table does not list for a path of the locations is
    answered 405 by the router: /locations knows GET and POST,
    /locations/{id:[0-9]+} knows GET, PUT and DELETE. No handler and no
    middleware sees such a request. *)
Theorem unlisted_method_is_405 (req : Request) :
  (Path req = "/locations" -> Method req <> "GET" -> Method req <> "POST" ->
     ServeHTTP routes req = methodNotAllowed req)
  /\ (match_template (WithID "/locations/") (Path req) = true ->
      Method req <> "GET" -> Method req <> "PUT" -> Method req <> "DELETE" ->
      ServeHTTP routes req = methodNotAllowed req).
Proof.
  split.
  - intros Hp Hg Hpost. unfold ServeHTTP, sm. cbn [Match tpl methods handler].
    rewrite Hp. cbn [match_method existsb].
    rewrite (not_method req "GET" Hg), (not_method req "POST" Hpost). reflexivity.
  - intros Hp Hg Hput Hdel. unfold match_template in Hp.
    destruct (strip_prefix "/locations/" (Path req)) as [rest|] eqn:Es; [|discriminate].
    apply strip_prefix_app in Es.
    assert (Hp' : match_template (WithID "/locations/") ("/locations/" ++ rest) = true)
      by exact Hp.
    unfold ServeHTTP, sm. cbn [Match tpl methods handler]. rewrite Es.
    change (match_template (Literal "/") ("/locations/" ++ rest)) with false.
    change (match_template (Literal "/locations") ("/locations/" ++ rest)) with false.
    change (match_template (Literal "/demo/callback") ("/locations/" ++ rest)) with false.
    change (match_template (Literal "/metrics") ("/locations/" ++ rest)) with false.
    cbv iota. rewrite Hp'. cbn [match_method existsb].
    rewrite (not_method req "GET" Hg), (not_method req "PUT" Hput),
      (not_method req "DELETE" Hdel). reflexivity.
Qed.

(** Three paths are open: / and /demo/callback answer 204 without a body,
    and /metrics is answered by the metrics handler, for every method and
    whatever the headers hold; no middleware stands before them. *)
Theorem open_routes (req : Request) :
  (Path req = "/" \/ Path req = "/demo/callback" ->
     ServeHTTP routes req = {| StatusCode := 204; Body := EmptyString |})
  /\ (Path req = "/metrics" -> ServeHTTP routes req = metricsHandler req).
Proof.
  split.
  - intros [Hp|Hp]; unfold ServeHTTP, sm; cbn [Match tpl methods handler];
      rewrite Hp; reflexivity.
  - intros Hp. unfold ServeHTTP, sm. cbn [Match tpl methods handler].
    rewrite Hp. reflexivity.
Qed.

End RoutingProperties.

Lemma locations_routes_authentication_witness :
  Main.ServeHTTP table (anonymous "GET" "/locations") = Main.unauthorized "unauthorized"
  /\ Main.ServeHTTP table (anonymous "GET" "/locations/12")
     = named "GetLocation" (anonymous "GET" "/locations/12")
  /\ Main.ServeHTTP table (anonymous "DELETE" "/locations/12")
     = named "DeleteLocation" (anonymous "DELETE" "/locations/12").
Proof.
  split; [|split].
  - destruct (locations_routes_authentication
                (named "GetLocations") (named "GetLocation") (named "CreateLocation")
                (named "UpdateLocation") (named "DeleteLocation") (named "metrics")
                (fun next => next) (fun next => next) one_token "unauthorized"
                (anonymous "GET" "/locations")) as [H _].
    destruct (H eq_refl eq_refl) as [Hno _]. apply Hno.
    intros [token [Ht _]]. discriminate Ht.
  - destruct (locations_routes_authentication
                (named "GetLocations") (named "GetLocation") (named "CreateLocation")
                (named "UpdateLocation") (named "DeleteLocation") (named "metrics")
                (fun next => next) (fun next => next) one_token "unauthorized"
                (anonymous "GET" "/locations/12")) as [_ H].
    destruct (H eq_refl) as [Hget _]. exact (Hget eq_refl).
  - destruct (locations_routes_authentication
                (named "GetLocations") (named "GetLocation") (named "CreateLocation")
                (named "UpdateLocation") (named "DeleteLocation") (named "metrics")
                (fun next => next) (fun next => next) one_token "unauthorized"
                (anonymous "DELETE" "/locations/12")) as [_ H].
    destruct (H eq_refl) as [_ Hdel]. exact (Hdel eq_refl).
Defined.

Lemma writing_routes_pass_both_middlewares_witness :
  Main.ServeHTTP table (anonymous "POST" "/locations")
  = named "CreateLocation" (anonymous "POST" "/locations")
  /\ Main.ServeHTTP table (anonymous "PUT" "/locations/7")
     = named "UpdateLocation" (anonymous "PUT" "/locations/7").
Proof.
  split.
  - exact (proj1 (writing_routes_pass_both_middlewares
                    (named "GetLocations") (named "GetLocation") (named "CreateLocation")
                    (named "UpdateLocation") (named "DeleteLocation") (named "metrics")
                    (fun next => next) (fun next => next) one_token "unauthorized"
                    (anonymous "POST" "/locations")) eq_refl eq_refl).
  - exact (proj2 (writing_routes_pass_both_middlewares
                    (named "GetLocations") (named "GetLocation") (named "CreateLocation")
                    (named "UpdateLocation") (named "DeleteLocation") (named "metrics")
                    (fun next => next) (fun next => next) one_token "unauthorized"
                    (anonymous "PUT" "/locations/7")) eq_refl eq_refl).
Defined.


Lemma unlisted_method_is_405_witness :
  Main.ServeHTTP table (anonymous "DELETE" "/locations")
  = Main.methodNotAllowed (anonymous "DELETE" "/locations")
  /\ Main.ServeHTTP table (anonymous "POST" "/locations/7")
     = Main.methodNotAllowed (anonymous "POST" "/locations/7").
Proof.
  split.
  - apply (proj1 (unlisted_method_is_405
                    (named "GetLocations") (named "GetLocation") (named "CreateLocation")
                    (named "UpdateLocation") (named "DeleteLocation") (named "metrics")
                    (fun next => next) (fun next => next) one_token "unauthorized"
                    (anonymous "DELETE" "/locations")) eq_refl); discriminate.
  - apply (proj2 (unlisted_method_is_405
                    (named "GetLocations") (named "GetLocation") (named "CreateLocation")
                    (named "UpdateLocation") (named "DeleteLocation") (named "metrics")
                    (fun next => next) (fun next => next) one_token "unauthorized"
                    (anonymous "POST" "/locations/7")) eq_refl); discriminate.
Defined.

Lemma open_routes_witness :
  Main.ServeHTTP table (anonymous "POST" "/demo/callback")
  = {| Main.StatusCode := 204; Main.Body := EmptyString |}
  /\ Main.ServeHTTP table (anonymous "GET" "/metrics")
     = named "metrics" (anonymous "GET" "/metrics").
Proof.
  split.
  - exact (proj1 (open_routes
                    (named "GetLocations") (named "GetLocation") (named "CreateLocation")
                    (named "UpdateLocation") (named "DeleteLocation") (named "metrics")
                    (fun next => next) (fun next => next) one_token "unauthorized"
                    (anonymous "POST" "/demo/callback")) (or_intror eq_refl)).
  - exact (proj2 (open_routes
                    (named "GetLocations") (named "GetLocation") (named "CreateLocation")
                    (named "UpdateLocation") (named "DeleteLocation") (named "metrics")
                    (fun next => next) (fun next => next) one_token "unauthorized"
                    (anonymous "GET" "/metrics")) eq_refl).
Defined.

(** * Properties of [openDB] *)

Section OpenDBProperties.
Import Main.

Variable Opened : Type.
Variable gorm_Open : string -> string -> Opened.

Lemma append_assoc (a b c : string) : ((a ++ b) ++ c = a ++ (b ++ c))%string.
Proof. induction a as [|x a IH]; simpl; [reflexivity|]. rewrite IH. reflexivity. Qed.

(** [openDB] knows two drivers, spelled exactly. For any other name it
    fails with its own error, which ends in the name it was given, before
    anything is logged and without a call of [gorm.Open]; for the two it
    never fails on its own: its result is what [gorm.Open] returns for that
    driver. *)
Theorem openDB_knows_two_drivers (cnf : Config) :
  (DbDriver cnf <> "sqlite3" /\ DbDriver cnf <> "mysql" <->
   exists msg, snd (openDB Opened gorm_Open cnf) = inl msg)
  /\ (forall msg, snd (openDB Opened gorm_Open cnf) = inl msg ->
        fst (openDB Opened gorm_Open cnf) = []
        /\ msg = ("error! Database driver must be one of: [sqlite3, mysql], was "
                  ++ DbDriver cnf)%string)
  /\ (forall opened, snd (openDB Opened gorm_Open cnf) = inr opened ->
        exists url, opened = gorm_Open (DbDriver cnf) url).
Proof.
  unfold openDB.
  destruct (DbDriver cnf =? "sqlite3")%string eqn:Es;
    [|destruct (DbDriver cnf =? "mysql")%string eqn:Em]; cbn [fst snd].
  - apply String.eqb_eq in Es. split; [split|split].
    + intros [H _]. contradiction.
    + intros [msg H]. discriminate.
    + intros msg H. discriminate.
    + intros opened H. injection H as <-. eexists. reflexivity.
  - apply String.eqb_eq in Em. split; [split|split].
    + intros [_ H]. contradiction.
    + intros [msg H]. discriminate.
    + intros msg H. discriminate.
    + intros opened H. injection H as <-. eexists. reflexivity.
  - apply String.eqb_neq in Es, Em. split; [split|split].
    + intros _. eexists. reflexivity.
    + intros _. split; assumption.
    + intros msg H. injection H as <-. split; reflexivity.
    + intros opened H. discriminate.
Qed.

(** With the mysql driver [openDB] writes the password to the log: the line
    it prints holds the URL of the connection, and the password of the
    configuration occurs in it as it is. *)
Theorem openDB_logs_the_password (cnf : Config) :
  DbDriver cnf = "mysql" ->
  exists line, fst (openDB Opened gorm_Open cnf) = [line]
               /\ occurs_in (DbPassword cnf) line
               /\ snd (openDB Opened gorm_Open cnf)
                  = inr (gorm_Open "mysql" (mysqlUrl cnf)).
Proof.
  intros Hd. unfold openDB. rewrite Hd. cbn [String.eqb Ascii.eqb Bool.eqb fst snd].
  eexists. split; [reflexivity|]. split; [|reflexivity].
  exists ("Connecting to mysql database... uri: " ++ DbUser cnf ++ ":")%string.
  eexists. unfold mysqlUrl. rewrite !append_assoc. reflexivity.
Qed.

End OpenDBProperties.

Lemma openDB_logs_the_password_witness :
  exists line,
    fst (Main.openDB unit (fun _ _ => tt)
           {| Main.DbDriver := "mysql"; Main.DbName := "pac"; Main.DbUser := "root";
              Main.DbPassword := "s3cret"; Main.DbHost := "db"; Main.DbPort := "3306" |})
    = [line]
    /\ Main.occurs_in "s3cret" line.
Proof.
  destruct (openDB_logs_the_password unit (fun _ _ => tt)
              {| Main.DbDriver := "mysql"; Main.DbName := "pac"; Main.DbUser := "root";
                 Main.DbPassword := "s3cret"; Main.DbHost := "db"; Main.DbPort := "3306" |}
              eq_refl) as [line [H1 [H2 _]]].
  exists line. split; [exact H1|exact H2].
Defined.
